(** * BlackVueSync: a shallow embedding of [blackvuesync.py]

    The script synchronises the recordings of a BlackVue dashcam with a local
    directory.  This development embeds its functions and settles the claims
    of the specification against them.

    Conventions of the embedding:
    - Python [str] is [string]; the character classes of the regular
      expressions are given on 7-bit text, where [\d] is [0-9] and [\w] is
      [A-Za-z0-9_].
    - Python [int] is [Z]; [int(s)] is total on strings of digits.
    - A directory is the set of the names of its entries.  [os.remove],
      [os.rename] and [urlretrieve] succeed in a writable directory and
      raise [OSError] elsewhere; [urlretrieve] raises [HTTPError] for a file
      the dashcam does not serve.
    - [None] is [option]'s [None]; a raised exception is the [Raise] result.
    - The two module globals [dry_run] and [cutoff_date] are the record
      [config], read by the functions that declare them [global].
    - The destination directory, the dashcam behind the address, the printed
      lines and the effects on disk and network are the record [world],
      threaded through the effectful functions. *)

From stdpp Require Import gmap strings list.
From Stdlib Require Import ZArith Ascii String Lia.

Local Open Scope string_scope.
Local Open Scope Z_scope.

(** ** Strings *)

Module Str.

(** Carriage return and line feed, the two characters Python writes
    [\r] and [\n]. *)
Definition CR : ascii := "013"%char.
Definition LF : ascii := "010"%char.
Definition CRLF : string := String CR (String LF EmptyString).

Definition code (c : ascii) : Z := Z.of_N (N_of_ascii c).

(** [s.startswith(p)] as the remainder after [p], when there is one. *)
Fixpoint strip_prefix (p s : string) : option string :=
  match p, s with
  | EmptyString, _ => Some s
  | String a p', String b s' => if Ascii.eqb a b then strip_prefix p' s' else None
  | String _ _, EmptyString => None
  end.

(** [s.endswith(p)] as the part before [p], when there is one. *)
Fixpoint strip_suffix (p s : string) : option string :=
  if String.eqb s p then Some EmptyString
  else match s with
       | EmptyString => None
       | String c s' => option_map (String c) (strip_suffix p s')
       end.

Definition endswith (s p : string) : bool :=
  match strip_suffix p s with Some _ => true | None => false end.

(** The slice [s[:-n]] for [n > 0]: all but the last [n] characters,
    empty when [s] is shorter than [n]. *)
Definition drop_last (n : nat) (s : string) : string :=
  substring 0 (String.length s - n) s.

Fixpoint forallb (p : ascii -> bool) (s : string) : bool :=
  match s with
  | EmptyString => true
  | String c s' => p c && forallb p s'
  end.

Fixpoint take_while (p : ascii -> bool) (s : string) : string :=
  match s with
  | EmptyString => EmptyString
  | String c s' => if p c then String c (take_while p s') else EmptyString
  end.

Fixpoint drop_while (p : ascii -> bool) (s : string) : string :=
  match s with
  | EmptyString => EmptyString
  | String c s' => if p c then drop_while p s' else s
  end.

(** [int(s)] on a string of decimal digits. *)
Definition digit_value (c : ascii) : Z := code c - 48.

Fixpoint int_acc (acc : Z) (s : string) : Z :=
  match s with
  | EmptyString => acc
  | String c s' => int_acc (10 * acc + digit_value c) s'
  end.

Definition int (s : string) : Z := int_acc 0 s.

End Str.

(** ** Regular expressions

    The fragment of Python's [re] the script uses: literal text, character
    classes, the greedy quantifiers [?], [*] and [+] on a class, sequencing
    and named groups.  [rmatch] is a backtracking matcher in
    continuation-passing style: the continuation receives the text the
    expression consumed, the rest of the subject and the groups closed so
    far, and a greedy quantifier tries the longer match first. *)

Module Re.

Definition charclass := ascii -> bool.

(** [\d] *)
Definition digit : charclass := fun c => (48 <=? Str.code c) && (Str.code c <=? 57).

(** [\w] *)
Definition word : charclass := fun c =>
  digit c
  || ((65 <=? Str.code c) && (Str.code c <=? 90))
  || ((97 <=? Str.code c) && (Str.code c <=? 122))
  || (Str.code c =? 95).

(** [.] without DOTALL: any character but the line feed. *)
Definition dot : charclass := fun c => negb (Ascii.eqb c Str.LF).

(** [[abc]] *)
Definition one_of (cs : string) : charclass := fun c =>
  existsb (Ascii.eqb c) (list_ascii_of_string cs).

Inductive regex : Type :=
| Lit (s : string)
| Class (p : charclass)
| Opt (p : charclass)
| Star (p : charclass)
| Plus (p : charclass)
| Cat (r1 r2 : regex)
| Group (name : string) (r : regex).

Definition groups := list (string * string).
Definition cont := string -> string -> groups -> option groups.

Fixpoint star (p : charclass) (k : cont) (s : string) (g : groups) : option groups :=
  match s with
  | String c s' =>
      if p c then
        match star p (fun t => k (String c t)) s' g with
        | Some g' => Some g'
        | None => k EmptyString s g
        end
      else k EmptyString s g
  | EmptyString => k EmptyString s g
  end.

Fixpoint rmatch (r : regex) (k : cont) (s : string) (g : groups) : option groups :=
  match r with
  | Lit l =>
      match Str.strip_prefix l s with
      | Some s' => k l s' g
      | None => None
      end
  | Class p =>
      match s with
      | String c s' => if p c then k (String c EmptyString) s' g else None
      | EmptyString => None
      end
  | Opt p =>
      match s with
      | String c s' =>
          if p c then
            match k (String c EmptyString) s' g with
            | Some g' => Some g'
            | None => k EmptyString s g
            end
          else k EmptyString s g
      | EmptyString => k EmptyString s g
      end
  | Star p => star p k s g
  | Plus p =>
      match s with
      | String c s' => if p c then star p (fun t => k (String c t)) s' g else None
      | EmptyString => None
      end
  | Cat r1 r2 =>
      rmatch r1 (fun t1 s1 g1 => rmatch r2 (fun t2 => k (t1 ++ t2)) s1 g1) s g
  | Group name r =>
      rmatch r (fun t s' g' => k t s' ((name, t) :: g')) s g
  end.

(** [re.fullmatch(r, s)]: the whole subject must be consumed. *)
Definition fullmatch (r : regex) (s : string) : option groups :=
  rmatch r (fun _ rest g => match rest with EmptyString => Some g | _ => None end) s [].

(** [m.group(name)] for a group that took part in the match. *)
Fixpoint group (name : string) (g : groups) : string :=
  match g with
  | [] => EmptyString
  | (n, t) :: g' => if String.eqb n name then t else group name g'
  end.

(** A sequence of expressions, as juxtaposition in the pattern. *)
Fixpoint seq (rs : list regex) : regex :=
  match rs with
  | [] => Lit EmptyString
  | [r] => r
  | r :: rs' => Cat r (seq rs')
  end.

End Re.

Import Re.

(** ** The patterns of the script *)

(** [keep_re]: [(?P<range>\d+)(?P<unit>[dw]?)] *)
Definition keep_re : regex :=
  seq [Group "range" (Plus digit); Group "unit" (Opt (one_of "dw"))].

(** [filename_re]:
    [(?P<year>\d\d\d\d)(?P<month>\d\d)(?P<day>\d\d)
     _(?P<hour>\d\d)(?P<minute>\d\d)(?P<second>\d\d)
     _(?P<type>[NEPM])(?P<direction>[FR])\.(?P<extension>\w+)] *)
Definition filename_re : regex :=
  seq [Group "year" (seq [Class digit; Class digit; Class digit; Class digit]);
       Group "month" (seq [Class digit; Class digit]);
       Group "day" (seq [Class digit; Class digit]);
       Lit "_";
       Group "hour" (seq [Class digit; Class digit]);
       Group "minute" (seq [Class digit; Class digit]);
       Group "second" (seq [Class digit; Class digit]);
       Lit "_";
       Group "type" (Class (one_of "NEPM"));
       Group "direction" (Class (one_of "FR"));
       Lit ".";
       Group "extension" (Plus word)].

(** [file_line_re]: [n:/Record/(?P<filename>.*\.mp4),s:1000000\r\n] *)
Definition file_line_re : regex :=
  seq [Lit "n:/Record/";
       Group "filename" (seq [Star dot; Lit ".mp4"]);
       Lit ",s:1000000";
       Lit Str.CRLF].

(** ** Exceptions *)

(** The failures the script raises itself, each a plain [Exception] with a
    message:
    - [KeepFormat]: "KEEP must be in the format <number>[dw]"
    - [KeepRange]: "KEEP must be greater than one."
    - [KeepUnit]: "unknown KEEP unit : %s"
    - [CannotCommunicate]: "Cannot communicate with dashcam at address : %s; error : %s"
    - [ErrorResponse]: "Error response from : %s ; status code : %s"
    - [NotADirectory]: "destination is not a directory : %s"
    - [NotWritable]: "destination directory not writable : %s" *)
Inductive script_error : Type :=
| KeepFormat
| KeepRange
| KeepUnit (unit : string)
| CannotCommunicate (base_url : string)
| ErrorResponse (base_url : string) (status : Z)
| NotADirectory (destination : string)
| NotWritable (destination : string).

(** [Exception] is what the script raises; the others come from the
    interpreter and its library: [ValueError] from the [datetime]
    constructor, [OverflowError] from date arithmetic, [AttributeError] from
    an attribute read on [None], [HTTPError] from [urlretrieve] and [OSError]
    from the file system. *)
Inductive exn : Type :=
| Exception (e : script_error)
| ValueError
| OverflowError
| AttributeError
| HTTPError
| OSError.

Inductive result (A : Type) : Type :=
| Ok (a : A)
| Raise (e : exn).
Arguments Ok {A} a.
Arguments Raise {A} e.

Definition rbind {A B} (r : result A) (f : A -> result B) : result B :=
  match r with
  | Ok a => f a
  | Raise e => Raise e
  end.

(** A list comprehension [[f(x) for x in xs]] whose [f] may raise. *)
Fixpoint rmap {A B} (f : A -> result B) (xs : list A) : result (list B) :=
  match xs with
  | [] => Ok []
  | x :: xs' => rbind (f x) (fun y => rbind (rmap f xs') (fun ys => Ok (y :: ys)))
  end.

(** A list comprehension [[x for x in xs if p(x)]] whose [p] may raise. *)
Fixpoint rfilter {A} (p : A -> result bool) (xs : list A) : result (list A) :=
  match xs with
  | [] => Ok []
  | x :: xs' =>
      rbind (p x) (fun b =>
      rbind (rfilter p xs') (fun ys => Ok (if b then x :: ys else ys)))
  end.

(** ** Dates

    The part of Python's [datetime] module the script uses, after the
    library's pure-Python implementation. *)

Module Datetime.

Record date : Type := { year : Z; month : Z; day : Z }.

Record datetime : Type :=
  { on : date; hour : Z; minute : Z; second : Z }.

Definition MINYEAR : Z := 1.
Definition MAXYEAR : Z := 9999.
Definition MAXORDINAL : Z := 3652059.

Definition is_leap (y : Z) : bool :=
  (y mod 4 =? 0) && (negb (y mod 100 =? 0) || (y mod 400 =? 0)).

Definition DAYS_IN_MONTH (m : Z) : Z :=
  nth (Z.to_nat m) [-1; 31; 28; 31; 30; 31; 30; 31; 31; 30; 31; 30; 31] 0.

Definition DAYS_BEFORE_MONTH (m : Z) : Z :=
  nth (Z.to_nat m) [-1; 0; 31; 59; 90; 120; 151; 181; 212; 243; 273; 304; 334] 0.

Definition days_before_year (y : Z) : Z :=
  let y := y - 1 in y * 365 + y / 4 - y / 100 + y / 400.

Definition days_in_month (y m : Z) : Z :=
  if (m =? 2) && is_leap y then 29 else DAYS_IN_MONTH m.

Definition days_before_month (y m : Z) : Z :=
  DAYS_BEFORE_MONTH m + (if (2 <? m) && is_leap y then 1 else 0).

Definition ymd2ord (y m d : Z) : Z :=
  days_before_year y + days_before_month y m + d.

Definition DI400Y : Z := 146097.
Definition DI100Y : Z := 36524.
Definition DI4Y : Z := 1461.

Definition ord2ymd (n : Z) : date :=
  let n := n - 1 in
  let n400 := n / DI400Y in
  let n := n mod DI400Y in
  let y := n400 * 400 + 1 in
  let n100 := n / DI100Y in
  let n := n mod DI100Y in
  let n4 := n / DI4Y in
  let n := n mod DI4Y in
  let n1 := n / 365 in
  let n := n mod 365 in
  let y := y + n100 * 100 + n4 * 4 + n1 in
  if (n1 =? 4) || (n100 =? 4) then
    {| year := y - 1; month := 12; day := 31 |}
  else
    let leapyear := (n1 =? 3) && (negb (n4 =? 24) || (n100 =? 3)) in
    let m := Z.shiftr (n + 50) 5 in
    let preceding := DAYS_BEFORE_MONTH m + (if (2 <? m) && leapyear then 1 else 0) in
    if n <? preceding then
      let m := m - 1 in
      let preceding :=
        preceding - (DAYS_IN_MONTH m + (if (m =? 2) && leapyear then 1 else 0)) in
      {| year := y; month := m; day := n - preceding + 1 |}
    else
      {| year := y; month := m; day := n - preceding + 1 |}.

(** [_check_date_fields] *)
Definition check_date_fields (y m d : Z) : bool :=
  (MINYEAR <=? y) && (y <=? MAXYEAR)
  && (1 <=? m) && (m <=? 12)
  && (1 <=? d) && (d <=? days_in_month y m).

(** [_check_time_fields], for the three fields the script passes. *)
Definition check_time_fields (h mi s : Z) : bool :=
  (0 <=? h) && (h <=? 23) && (0 <=? mi) && (mi <=? 59) && (0 <=? s) && (s <=? 59).

(** [datetime.datetime(year, month, day, hour, minute, second)] *)
Definition mk_datetime (y m d h mi s : Z) : result datetime :=
  if check_date_fields y m d then
    if check_time_fields h mi s then
      Ok {| on := {| year := y; month := m; day := d |};
            hour := h; minute := mi; second := s |}
    else Raise ValueError
  else Raise ValueError.

Definition valid_date (d : date) : bool :=
  check_date_fields (year d) (month d) (day d).

(** [date.toordinal] and [date.fromordinal] *)
Definition toordinal (d : date) : Z := ymd2ord (year d) (month d) (day d).
Definition fromordinal (n : Z) : date := ord2ymd n.

(** Dates order as the tuples [(year, month, day)]. *)
Definition date_ltb (a b : date) : bool :=
  (year a <? year b)
  || ((year a =? year b)
      && ((month a <? month b)
          || ((month a =? month b) && (day a <? day b)))).

Definition date_geb (a b : date) : bool := negb (date_ltb a b).

(** [datetime.timedelta(days=n)] and [datetime.timedelta(weeks=n)], as the
    number of days they hold. *)
Definition timedelta_days (n : Z) : result Z :=
  if Z.abs n <=? 999999999 then Ok n else Raise OverflowError.

Definition timedelta_weeks (n : Z) : result Z := timedelta_days (7 * n).

(** [d - timedelta]: [date.__sub__] goes through [__add__] of the negated
    number of days. *)
Definition date_sub (d : date) (days : Z) : result date :=
  let o := toordinal d + - days in
  if (0 <? o) && (o <=? MAXORDINAL) then Ok (fromordinal o)
  else Raise OverflowError.

End Datetime.

Import Datetime.

(** ** The pure functions of the script *)

(** [Recording = namedtuple('Recording', 'filename datetime type direction extension')] *)
Record Recording : Type :=
  { filename : string;
    datetime_ : datetime;
    type_ : string;
    direction : string;
    extension : string }.

(** The module globals [dry_run] and [cutoff_date]. *)
Record config : Type :=
  { dry_run : bool;
    cutoff_date : option date }.

(** [calc_cutoff_date(keep)]; [today] is what [datetime.date.today()]
    returns.  [keep_match.group("unit") or "d"] replaces the empty unit by
    ["d"]; the test [keep_unit is "w"] holds for the one-character string
    ["w"], which the interpreter shares, and is the equality here. *)
Definition calc_cutoff_date (today : date) (keep : string) : result date :=
  match fullmatch keep_re keep with
  | None => Raise (Exception KeepFormat)
  | Some keep_match =>
      let keep_range := Str.int (group "range" keep_match) in
      if keep_range <? 1 then Raise (Exception KeepRange)
      else
        let keep_unit :=
          match group "unit" keep_match with
          | EmptyString => "d"
          | u => u
          end in
        rbind
          (if String.eqb keep_unit "d" then timedelta_days keep_range
           else if String.eqb keep_unit "w" then timedelta_weeks keep_range
           else Raise (Exception (KeepUnit keep_unit)))
          (fun keep_range_timedelta => date_sub today keep_range_timedelta)
  end.

(** [get_recording(filename)] *)
Definition get_recording (filename : string) : result (option Recording) :=
  match fullmatch filename_re filename with
  | None => Ok None
  | Some filename_match =>
      let year := Str.int (group "year" filename_match) in
      let month := Str.int (group "month" filename_match) in
      let day := Str.int (group "day" filename_match) in
      let hour := Str.int (group "hour" filename_match) in
      let minute := Str.int (group "minute" filename_match) in
      let second := Str.int (group "second" filename_match) in
      rbind (mk_datetime year month day hour minute second)
        (fun recording_datetime =>
           let recording_type := group "type" filename_match in
           let recording_direction := group "direction" filename_match in
           let recording_extension := group "extension" filename_match in
           Ok (Some {| filename := filename;
                       datetime_ := recording_datetime;
                       type_ := recording_type;
                       direction := recording_direction;
                       extension := recording_extension |}))
  end.

(** [get_filenames(file_lines)] *)
Fixpoint get_filenames (file_lines : list string) : list string :=
  match file_lines with
  | [] => []
  | file_line :: rest =>
      match fullmatch file_line_re file_line with
      | Some file_line_match => group "filename" file_line_match :: get_filenames rest
      | None => get_filenames rest
      end
  end.

(** An attribute read [x.datetime] or [x.filename] on a value that may be
    [None]. *)
Definition attr {A} (f : Recording -> A) (x : option Recording) : result A :=
  match x with
  | Some r => Ok (f r)
  | None => Raise AttributeError
  end.

(** [get_outdated_recordings(recordings)] *)
Definition get_outdated_recordings (cfg : config) (recordings : list (option Recording))
  : result (list (option Recording)) :=
  match cutoff_date cfg with
  | None => Ok []
  | Some cutoff =>
      rfilter (fun x => rbind (attr datetime_ x) (fun dt => Ok (date_ltb (on dt) cutoff)))
        recordings
  end.

(** [get_current_recordings(recordings)] *)
Definition get_current_recordings (cfg : config) (recordings : list (option Recording))
  : result (list (option Recording)) :=
  match cutoff_date cfg with
  | None => Ok recordings
  | Some cutoff =>
      rfilter (fun x => rbind (attr datetime_ x) (fun dt => Ok (date_geb (on dt) cutoff)))
        recordings
  end.

(** ** The world of the script *)

(** What a path of the file system names: a regular file, or a directory
    with its permission to write and the names of its entries. *)
Inductive node : Type :=
| FileNode
| DirNode (writable : bool) (entries : gset string).

(** [os.path.join(destination, filename)] for a [filename] without
    separator: the entry [name] of the directory [dir]. *)
Record path : Type := { dir : string; name : string }.

Definition os_path_join (destination filename : string) : path :=
  {| dir := destination; name := filename |}.

(** The body of an HTTP response, line by line, with its status code. *)
Record response : Type := { status : Z; body : list string }.

Inductive message : Type :=
| CutoffDate (d : date)                          (* "Cutoff date : %s" *)
| AlreadyDownloaded (filename : string)          (* "Already downloaded : %s" *)
| FoundUnfinished (temp_filepath : path)         (* "Found unfinished download : %s" *)
| Downloading (filename : string) (filepath : path)
                                                 (* "Downloading : %s; to : %s..." *)
| Done                                           (* "done." *)
| WouldDownload (filename : string) (filepath : path)
                                                 (* "Dry run: would download : %s; to : %s" *)
| WouldRemove (filepath : path)                  (* "Would remove : %s" *)
| Failure (e : exn).                             (* [print(e)] in [run] *)

(** What the script does to its surroundings, in the order it does it. *)
Inductive effect : Type :=
| Print (m : message)
| MakeDirs (destination : string)
| Remove (filepath : path)
| Rename (src dst : path)
| UrlOpen (url : string)
| UrlRetrieve (url : string) (temp_filepath : path).

Record world : Type :=
  { fs : gmap string node;                  (* directories and files by path *)
    http_index : string -> option response; (* what [urlopen] gets; [None]: URLError *)
    http_files : gset string;               (* the URLs [urlretrieve] can fetch *)
    today : date;                           (* [datetime.date.today()] *)
    cwd : string;                           (* [os.getcwd()] *)
    trace : list effect }.

Definition set_fs (f : gmap string node) (w : world) : world :=
  {| fs := f; http_index := http_index w; http_files := http_files w;
     today := today w; cwd := cwd w; trace := trace w |}.

Definition emit (e : effect) (w : world) : world :=
  {| fs := fs w; http_index := http_index w; http_files := http_files w;
     today := today w; cwd := cwd w; trace := trace w ++ [e] |}.

(** Effectful code: a state transformer over the world that returns a
    value or raises, keeping the effects made before the exception. *)
Definition M (A : Type) : Type := world -> result A * world.

Definition ret {A} (a : A) : M A := fun w => (Ok a, w).
Definition raise {A} (e : exn) : M A := fun w => (Raise e, w).
Definition lift {A} (r : result A) : M A := fun w => (r, w).

Definition bind {A B} (m : M A) (f : A -> M B) : M B :=
  fun w =>
    match m w with
    | (Ok a, w') => f a w'
    | (Raise e, w') => (Raise e, w')
    end.

Notation "'do' x <- m1 ; m2" := (bind m1 (fun x => m2))
  (at level 10, x name, m1 at level 100, m2 at level 200).
Notation "m1 >> m2" := (bind m1 (fun _ => m2))
  (at level 90, right associativity).

(** [for x in xs: body] *)
Fixpoint for_each {A} (xs : list A) (body : A -> M unit) : M unit :=
  match xs with
  | [] => ret tt
  | x :: xs' => body x >> for_each xs' body
  end.

Definition print (m : message) : M unit := fun w => (Ok tt, emit (Print m) w).

(** *** File system *)

Definition entries_of (destination : string) (w : world) : option (gset string) :=
  match fs w !! destination with
  | Some (DirNode _ es) => Some es
  | _ => None
  end.

(** [os.path.exists(destination)] *)
Definition os_path_exists_dir (destination : string) : M bool :=
  fun w => (Ok (bool_decide (is_Some (fs w !! destination))), w).

(** [os.path.isdir(destination)] *)
Definition os_path_isdir (destination : string) : M bool :=
  fun w => (Ok (match fs w !! destination with Some (DirNode _ _) => true | _ => false end), w).

(** [os.access(destination, os.W_OK)] *)
Definition os_access_W (destination : string) : M bool :=
  fun w => (Ok (match fs w !! destination with Some (DirNode b _) => b | _ => false end), w).

(** [os.makedirs(destination)] *)
Definition os_makedirs (destination : string) : M unit :=
  fun w =>
    match fs w !! destination with
    | None => (Ok tt, emit (MakeDirs destination) (set_fs (<[destination := DirNode true ∅]> (fs w)) w))
    | Some _ => (Raise OSError, w)
    end.

(** [os.listdir(destination)] *)
Definition os_listdir (destination : string) : M (list string) :=
  fun w =>
    match entries_of destination w with
    | Some es => (Ok (elements es), w)
    | None => (Raise OSError, w)
    end.

(** [os.path.exists(filepath)] for an entry of a directory. *)
Definition os_path_exists (filepath : path) : M bool :=
  fun w =>
    (Ok (match entries_of (dir filepath) w with
         | Some es => bool_decide (name filepath ∈ es)
         | None => false
         end), w).

(** [os.remove(filepath)] *)
Definition os_remove (filepath : path) : M unit :=
  fun w =>
    match fs w !! dir filepath with
    | Some (DirNode true es) =>
        if bool_decide (name filepath ∈ es) then
          (Ok tt, emit (Remove filepath)
                    (set_fs (<[dir filepath := DirNode true (es ∖ {[name filepath]})]> (fs w)) w))
        else (Raise OSError, w)
    | _ => (Raise OSError, w)
    end.

(** [os.rename(src, dst)] inside one directory. *)
Definition os_rename (src dst : path) : M unit :=
  fun w =>
    match fs w !! dir src with
    | Some (DirNode true es) =>
        if bool_decide (name src ∈ es) && String.eqb (dir src) (dir dst) then
          (Ok tt, emit (Rename src dst)
                    (set_fs (<[dir src := DirNode true ((es ∖ {[name src]}) ∪ {[name dst]})]> (fs w)) w))
        else (Raise OSError, w)
    | _ => (Raise OSError, w)
    end.

(** *** Network *)

(** [urllib.parse.urljoin(base_url, rel)] for a [base_url] of the form
    [http://<address>] and a relative path. *)
Definition urljoin (base_url rel : string) : string := base_url ++ "/" ++ rel.

(** [urllib.request.urlopen(request)]: the response, or [None] where the
    library raises [URLError]. *)
Definition urlopen (url : string) : M (option response) :=
  fun w => (Ok (http_index w url), emit (UrlOpen url) w).

(** [urllib.request.urlretrieve(url, temp_filepath)] *)
Definition urlretrieve (url : string) (temp_filepath : path) : M unit :=
  fun w =>
    let w := emit (UrlRetrieve url temp_filepath) w in
    if bool_decide (url ∈ http_files w) then
      match fs w !! dir temp_filepath with
      | Some (DirNode true es) =>
          (Ok tt, set_fs (<[dir temp_filepath := DirNode true (es ∪ {[name temp_filepath]})]> (fs w)) w)
      | _ => (Raise OSError, w)
      end
    else (Raise HTTPError, w).

(** ** The effectful functions of the script *)

(** [get_dashcam_filenames(base_url)]; the lines of the body are taken as
    already decoded. *)
Definition get_dashcam_filenames (base_url : string) : M (list string) :=
  let url := urljoin base_url "blackvue_vod.cgi" in
  do r <- urlopen url;
  match r with
  | None => raise (Exception (CannotCommunicate base_url))
  | Some response =>
      let response_status_code := status response in
      if negb (response_status_code =? 200) then
        raise (Exception (ErrorResponse base_url response_status_code))
      else
        let file_lines := body response in
        ret (get_filenames file_lines)
  end.

(** [download_file(base_url, filename, destination)] *)
Definition download_file (cfg : config) (base_url filename destination : string) : M unit :=
  let filepath := os_path_join destination filename in
  do exists_ <- os_path_exists filepath;
  if exists_ then print (AlreadyDownloaded filename)
  else
    let temp_filepath := os_path_join destination (String "." filename) in
    do unfinished <- os_path_exists temp_filepath;
    (if unfinished then print (FoundUnfinished temp_filepath) else ret tt) >>
    let url := urljoin base_url ("Record/" ++ filename) in
    if negb (dry_run cfg) then
      print (Downloading filename filepath) >>
      urlretrieve url temp_filepath >>
      os_rename temp_filepath filepath >>
      print Done
    else
      print (WouldDownload filename filepath).

(** [download_recording(base_url, recording, destination)] *)
Definition download_recording (cfg : config) (base_url : string)
    (recording : option Recording) (destination : string) : M unit :=
  do filename <- lift (attr filename recording);
  download_file cfg base_url filename destination >>
  if Str.endswith filename "_NF.mp4" then
    let base_filename := Str.drop_last 7 filename in
    let gps_filename := base_filename ++ "_N.gps" in
    download_file cfg base_url gps_filename destination >>
    let tgf_filename := base_filename ++ "_N.3gf" in
    download_file cfg base_url tgf_filename destination
  else ret tt.

(** [get_destination_recordings(destination)] *)
Definition get_destination_recordings (destination : string) : M (list (option Recording)) :=
  do existing_files <- os_listdir destination;
  do parsed <- lift (rmap get_recording existing_files);
  ret (filter (fun x => is_Some x) parsed).

(** [prepare_destination(destination)] *)
Definition prepare_destination (cfg : config) (destination : string) : M unit :=
  do exists_ <- os_path_exists_dir destination;
  if negb exists_ then os_makedirs destination
  else
    do isdir <- os_path_isdir destination;
    if negb isdir then raise (Exception (NotADirectory destination))
    else
      do writable <- os_access_W destination;
      if negb writable then raise (Exception (NotWritable destination))
      else
        match cutoff_date cfg with
        | Some _ =>
            do existing_recordings <- get_destination_recordings destination;
            do outdated_recordings <- lift (get_outdated_recordings cfg existing_recordings);
            for_each outdated_recordings (fun outdated_recording =>
              do outdated_filename <- lift (attr filename outdated_recording);
              let outdated_filepath := os_path_join destination outdated_filename in
              if negb (dry_run cfg) then os_remove outdated_filepath
              else print (WouldRemove outdated_filepath))
        | None => ret tt
        end.

(** [sync(address, destination)] *)
Definition sync (cfg : config) (address destination : string) : M unit :=
  let base_url := "http://" ++ address in
  do dashcam_filenames <- get_dashcam_filenames base_url;
  do dashcam_recordings <- lift (rmap get_recording dashcam_filenames);
  do current_dashcam_recordings <- lift (get_current_recordings cfg dashcam_recordings);
  for_each current_dashcam_recordings (fun recording =>
    download_recording cfg base_url recording destination).

(** The command line, as [parse_args()] returns it. *)
Record args : Type :=
  { address : string;
    destination : option string;
    keep : option string;
    arg_dry_run : bool }.

(** A Python value used as a condition: [None] and the empty string are
    false. *)
Definition truthy (s : option string) : option string :=
  match s with
  | Some EmptyString => None
  | _ => s
  end.

(** [run()]: the exit status is [None] (taken as 0) or 1;
    [calc_cutoff_date] is called outside the [try] and its exception leaves
    [run]. *)
Definition run (a : args) : M (option Z) :=
  fun w =>
    let dry := arg_dry_run a in
    let start : M (option date) :=
      match truthy (keep a) with
      | Some k =>
          do c <- lift (calc_cutoff_date (today w) k);
          print (CutoffDate c) >> ret (Some c)
      | None => ret None
      end in
    match start w with
    | (Raise e, w') => (Raise e, w')
    | (Ok cutoff, w') =>
        let cfg := {| dry_run := dry; cutoff_date := cutoff |} in
        let destination :=
          match truthy (destination a) with Some d => d | None => cwd w' end in
        match (prepare_destination cfg destination >> sync cfg (address a) destination) w' with
        | (Ok _, w'') => (Ok None, w'')
        | (Raise e, w'') => (Ok (Some 1), emit (Print (Failure e)) w'')
        end
    end.

(** * Specification-side definitions *)

(** ** The remote listing, as the specification words it *)

(** The line of the index that names [f], as [file_line_re] reads it. *)
Definition listed (line f : string) : Prop :=
  line = "n:/Record/" ++ f ++ ",s:1000000" ++ Str.CRLF
  /\ Str.endswith f ".mp4" = true
  /\ Str.forallb dot f = true.

(** The line of the index that names [f], as the specification words it:
    any file name and any decimal size. *)
Definition listed_any_size (line f : string) : Prop :=
  exists size, size <> "" /\ Str.forallb digit size = true
               /\ line = "n:/Record/" ++ f ++ ",s:" ++ size ++ Str.CRLF.

(** [picks P lines names]: [names] are the names [P] reads from [lines],
    in order, the lines [P] reads nothing from being skipped. *)
Inductive picks (P : string -> string -> Prop) : list string -> list string -> Prop :=
| picks_nil : picks P [] []
| picks_take line f lines names :
    P line f -> picks P lines names -> picks P (line :: lines) (f :: names)
| picks_skip line lines names :
    (forall f, ~ P line f) -> picks P lines names -> picks P (line :: lines) names.

Definition line_suffix : string := ".mp4,s:1000000" ++ Str.CRLF.

(** ** File names, as the specification words them *)

(** The fields of a name [YYYYMMDD_HHMMSS_<T><D>.<ext>], as spelled. *)
Record fields : Type :=
  { f_year : string; f_month : string; f_day : string;
    f_hour : string; f_minute : string; f_second : string;
    f_type : string; f_direction : string; f_extension : string }.

(** The next [n] characters, when they are decimal digits. *)
Fixpoint take_digits (n : nat) (s : string) : option (string * string) :=
  match n with
  | O => Some (EmptyString, s)
  | S n' =>
      match s with
      | String c s' =>
          if digit c then
            match take_digits n' s' with
            | Some (d, r) => Some (String c d, r)
            | None => None
            end
          else None
      | EmptyString => None
      end
  end.

(** The next character, when it is one of [cs]. *)
Definition take_code (cs : string) (s : string) : option (string * string) :=
  match s with
  | String c s' => if one_of cs c then Some (String c EmptyString, s') else None
  | EmptyString => None
  end.

(** Reads a name left to right against the canonical pattern: eight
    digits of date, six of time, a type among N, E, P, M, a direction
    among F, R, and a non-empty extension of word characters. *)
Definition canonical_fields (s : string) : option fields :=
  '(y, s) ← take_digits 4 s;
  '(mo, s) ← take_digits 2 s;
  '(d, s) ← take_digits 2 s;
  s ← Str.strip_prefix "_" s;
  '(h, s) ← take_digits 2 s;
  '(mi, s) ← take_digits 2 s;
  '(sc, s) ← take_digits 2 s;
  s ← Str.strip_prefix "_" s;
  '(t, s) ← take_code "NEPM" s;
  '(dr, s) ← take_code "FR" s;
  s ← Str.strip_prefix "." s;
  match s with
  | EmptyString => None
  | String _ _ =>
      if Str.forallb word s then
        Some {| f_year := y; f_month := mo; f_day := d;
                f_hour := h; f_minute := mi; f_second := sc;
                f_type := t; f_direction := dr; f_extension := s |}
      else None
  end.

(** The recording the specification expects of a name with fields [f]. *)
Definition recording_of (s : string) (f : fields) : Recording :=
  {| filename := s;
     datetime_ :=
       {| on := {| year := Str.int (f_year f);
                   month := Str.int (f_month f);
                   day := Str.int (f_day f) |};
          hour := Str.int (f_hour f);
          minute := Str.int (f_minute f);
          second := Str.int (f_second f) |};
     type_ := f_type f;
     direction := f_direction f;
     extension := f_extension f |}.

(** The numeric fields form a calendar date and a time of day. *)
Definition valid_fields (f : fields) : bool :=
  check_date_fields (Str.int (f_year f)) (Str.int (f_month f)) (Str.int (f_day f))
  && check_time_fields (Str.int (f_hour f)) (Str.int (f_minute f)) (Str.int (f_second f)).


(** [n] decimal digits. *)
Definition digits (n : nat) (s : string) : Prop :=
  String.length s = n /\ Str.forallb digit s = true.

(** The canonical pattern [YYYYMMDD_HHMMSS_<T><D>.<ext>], spelled out. *)
Definition canonical (s : string) (f : fields) : Prop :=
  s = f_year f ++ f_month f ++ f_day f ++ "_"
      ++ f_hour f ++ f_minute f ++ f_second f ++ "_"
      ++ f_type f ++ f_direction f ++ "." ++ f_extension f
  /\ digits 4 (f_year f) /\ digits 2 (f_month f) /\ digits 2 (f_day f)
  /\ digits 2 (f_hour f) /\ digits 2 (f_minute f) /\ digits 2 (f_second f)
  /\ In (f_type f) ["N"; "E"; "P"; "M"]
  /\ In (f_direction f) ["F"; "R"]
  /\ f_extension f <> "" /\ Str.forallb word (f_extension f) = true.

(** ** Auxiliary definitions for the calendar *)

(** [P] holds of [0 .. k-1]. *)
Fixpoint forall_below (k : nat) (P : Z -> bool) : bool :=
  match k with
  | O => true
  | S k' => P (Z.of_nat k') && forall_below k' P
  end.

(** The month and day of the [n]-th day of a year, counted from 0, as
    [ord2ymd] finds them. *)
Definition month_day (leapyear : bool) (n : Z) : Z * Z :=
  let m := Z.shiftr (n + 50) 5 in
  let preceding := DAYS_BEFORE_MONTH m + (if (2 <? m) && leapyear then 1 else 0) in
  if n <? preceding then
    let m := m - 1 in
    let preceding :=
      preceding - (DAYS_IN_MONTH m + (if (m =? 2) && leapyear then 1 else 0)) in
    (m, n - preceding + 1)
  else (m, n - preceding + 1).

Definition month_day_ok (leapyear : bool) (n : Z) : bool :=
  let '(m, d) := month_day leapyear n in
  (1 <=? m) && (m <=? 12) && (1 <=? d)
  && (d <=? (if (m =? 2) && leapyear then 29 else DAYS_IN_MONTH m))
  && (DAYS_BEFORE_MONTH m + (if (2 <? m) && leapyear then 1 else 0) + d =? n + 1).

(** ** The keep specification, as the specification words it *)

(** Reads [keep] against [^(\d+)([dw]?)$]: the digits and the unit. *)
Definition keep_fields (keep : string) : option (string * string) :=
  let number := Str.take_while digit keep in
  let unit := Str.drop_while digit keep in
  match number with
  | EmptyString => None
  | String _ _ =>
      if String.eqb unit "" || String.eqb unit "d" || String.eqb unit "w"
      then Some (number, unit)
      else None
  end.

(** The same pattern, spelled out. *)
Definition keep_shape (keep number unit : string) : Prop :=
  keep = number ++ unit
  /\ number <> "" /\ Str.forallb digit number = true
  /\ In unit [""; "d"; "w"].

(** The magnitude in days: weeks for the unit [w], days otherwise. *)
Definition keep_days (number unit : string) : Z :=
  if String.eqb unit "w" then 7 * Str.int number else Str.int number.

(** ** Observations on worlds and traces *)

(** What [os.path.exists] answers for the entry [n] of [destination]. *)
Definition present (destination n : string) (w : world) : bool :=
  match entries_of destination w with
  | Some es => bool_decide (n ∈ es)
  | None => false
  end.

(** The effects that change the file system or download a file; printing
    and the request for the index are the others. *)
Definition mutation (e : effect) : bool :=
  match e with
  | MakeDirs _ | Remove _ | Rename _ _ | UrlRetrieve _ _ => true
  | Print _ | UrlOpen _ => false
  end.

(** The file a line of output says [download_file] was called for. *)
Definition attempted (e : effect) : option string :=
  match e with
  | Print (AlreadyDownloaded f) => Some f
  | Print (Downloading f _) => Some f
  | Print (WouldDownload f _) => Some f
  | _ => None
  end.

Definition attempts (t : list effect) : list string := omap attempted t.

(** A name that starts with a dot, as the temporary files do. *)
Definition hidden (n : string) : bool :=
  match n with
  | String c _ => Ascii.eqb c "."
  | EmptyString => false
  end.

(** The files [download_recording] calls [download_file] for. *)
Definition targets (f : string) : list string :=
  f :: (if Str.endswith f "_NF.mp4"
        then [Str.drop_last 7 f ++ "_N.gps"; Str.drop_last 7 f ++ "_N.3gf"]
        else []).

(** [w'] is [w] after more effects: the surroundings the script cannot
    change are the same and the trace has grown by [new]. *)
Definition extends (w w' : world) (new : list effect) : Prop :=
  http_index w' = http_index w /\ http_files w' = http_files w
  /\ today w' = today w /\ cwd w' = cwd w
  /\ trace w' = (trace w ++ new)%list.

(** What [get_dashcam_filenames] returns, read off the world. *)
Definition listing (base_url : string) (w : world) : result (list string) :=
  match http_index w (urljoin base_url "blackvue_vod.cgi") with
  | None => Raise (Exception (CannotCommunicate base_url))
  | Some response =>
      if negb (status response =? 200)
      then Raise (Exception (ErrorResponse base_url (status response)))
      else Ok (get_filenames (body response))
  end.

(** The recordings [sync] goes on to download. *)
Definition plan (cfg : config) (base_url : string) (w : world)
  : result (list (option Recording)) :=
  rbind (listing base_url w) (fun names =>
  rbind (rmap get_recording names) (get_current_recordings cfg)).

(** ** The local scan and the pruning, as the specification words them *)

(** A name the scan can read: it does not match the pattern, or its
    numeric fields form a date and a time. *)
Definition scannable (x : string) : bool :=
  match canonical_fields x with
  | Some f => valid_fields f
  | None => true
  end.

(** The recordings of the names that match the pattern, in order. *)
Definition scanned (names : list string) : list Recording :=
  omap (fun x => recording_of x <$> canonical_fields x) names.

(** A name of a recording dated strictly before the cutoff. *)
Definition outdated_name (cutoff : date) (x : string) : bool :=
  match canonical_fields x with
  | Some f => date_ltb (on (datetime_ (recording_of x f))) cutoff
  | None => false
  end.

(** The body of the loop of [prepare_destination]. *)
Definition prune_body (cfg : config) (destination : string)
    (outdated_recording : option Recording) : M unit :=
  do outdated_filename <- lift (attr filename outdated_recording);
  let outdated_filepath := os_path_join destination outdated_filename in
  if negb (dry_run cfg) then os_remove outdated_filepath
  else print (WouldRemove outdated_filepath).

(** The destination [run] works on. *)
Definition destination_of (a : args) (w : world) : string :=
  match truthy (destination a) with
  | Some d => d
  | None => cwd w
  end.

(** ** Sample worlds

    A dashcam at the address [cam] that answers the index request with
    [lines] and serves the files [served]; a file system whose only
    directory, when there is one, is [dest] with the entries [entries]; the
    day is 2023-06-15. *)

Definition index_line (f : string) : string :=
  "n:/Record/" ++ f ++ ",s:1000000" ++ Str.CRLF.

Definition sample_world (entries : option (gset string)) (lines served : list string)
  : world :=
  {| fs := match entries with
           | Some es => {[ "dest" := DirNode true es ]}
           | None => ∅
           end;
     http_index := fun url =>
       if String.eqb url "http://cam/blackvue_vod.cgi"
       then Some {| status := 200; body := lines |}
       else None;
     http_files := list_to_set (map (fun f => "http://cam/Record/" ++ f) served);
     today := {| year := 2023; month := 6; day := 15 |};
     cwd := "dest";
     trace := [] |}.

Definition no_cutoff : config := {| dry_run := false; cutoff_date := None |}.

Definition cutoff_2023 : config :=
  {| dry_run := false;
     cutoff_date := Some {| year := 2023; month := 1; day := 1 |} |}.

(** A listing whose first name has the direction code [I], which
    [filename_re] does not know, followed by a rear recording. *)
Definition world_unparsed : world :=
  sample_world (Some ∅)
    ["v:1.00" ++ Str.CRLF;
     index_line "20230101_000000_NI.mp4";
     index_line "20230101_000100_NR.mp4"]
    ["20230101_000000_NI.mp4"; "20230101_000100_NR.mp4"].

(** A front recording with its two companions on the dashcam, and an
    empty destination. *)
Definition world_front : world :=
  sample_world (Some ∅)
    ["v:1.00" ++ Str.CRLF; index_line "20230101_000000_NF.mp4"]
    ["20230101_000000_NF.mp4"; "20230101_000000_N.gps"; "20230101_000000_N.3gf"].

(** The same dashcam, and no destination directory yet. *)
Definition world_no_destination : world :=
  sample_world None
    ["v:1.00" ++ Str.CRLF; index_line "20230101_000000_NF.mp4"]
    ["20230101_000000_NF.mp4"; "20230101_000000_N.gps"; "20230101_000000_N.3gf"].

Definition args_dry : args :=
  {| address := "cam"; destination := Some "dest"; keep := None; arg_dry_run := true |}.

(** A destination with a recording of 2020, one of June 2023 and a file
    that is no recording. *)
Definition entries_mixed : gset string :=
  {[ "20200101_000000_NF.mp4"; "20230601_000000_NF.mp4"; "notes.txt" ]}.

Definition world_mixed : world := sample_world (Some entries_mixed) [] [].

(** A destination with a recording of 2020 and a name that matches the
    pattern with the month 13. *)
Definition entries_month_13 : gset string :=
  {[ "20200101_000000_NF.mp4"; "20231301_000000_NF.mp4" ]}.

Definition world_month_13 : world := sample_world (Some entries_month_13) [] [].

Definition front_recording : Recording :=
  {| filename := "20230101_000000_NF.mp4";
     datetime_ := {| on := {| year := 2023; month := 1; day := 1 |};
                     hour := 0; minute := 0; second := 0 |};
     type_ := "N"; direction := "F"; extension := "mp4" |}.

Definition rear_recording : Recording :=
  {| filename := "20230101_000000_NR.mp4";
     datetime_ := {| on := {| year := 2023; month := 1; day := 1 |};
                     hour := 0; minute := 0; second := 0 |};
     type_ := "N"; direction := "R"; extension := "mp4" |}.

(** * Proofs *)

Local Arguments String.append !s1 s2.

(** ** Facts about strings *)

Section StringFacts.

Implicit Types (s t p : string) (c : ascii).

Lemma append_nil_r s : s ++ "" = s.
Proof. induction s; simpl; congruence. Qed.

Lemma append_assoc s t u : (s ++ t) ++ u = s ++ t ++ u.
Proof. induction s; simpl; congruence. Qed.

Lemma length_append s t : String.length (s ++ t) = (String.length s + String.length t)%nat.
Proof. induction s; simpl; congruence. Qed.

Lemma append_inv_r s t u : s ++ u = t ++ u -> s = t.
Proof.
  revert t; induction s as [|c s IH]; intros [|d t] H; simpl in H.
  - reflexivity.
  - apply (f_equal String.length) in H. simpl in H. rewrite length_append in H. lia.
  - apply (f_equal String.length) in H. simpl in H. rewrite length_append in H. lia.
  - injection H as -> H. f_equal. auto.
Qed.

Lemma strip_prefix_Some p s r : Str.strip_prefix p s = Some r <-> s = p ++ r.
Proof.
  revert s; induction p as [|a p IH]; intros s; simpl.
  - split; [intros [= ->] | intros ->]; reflexivity.
  - destruct s as [|b s]; [split; discriminate|].
    destruct (Ascii.eqb_spec a b) as [<-|Hne].
    + rewrite IH. split; [intros -> | intros [= ->]]; reflexivity.
    + split; [discriminate | intros [= ? _]; congruence].
Qed.

Lemma strip_suffix_Some p s b : Str.strip_suffix p s = Some b <-> s = b ++ p.
Proof.
  revert b; induction s as [|c s IH]; intros b.
  - cbn [Str.strip_suffix]. destruct (String.eqb_spec "" p) as [<-|Hne].
    + split; [intros [= <-]; reflexivity|].
      destruct b; [reflexivity | discriminate].
    + split; [discriminate|].
      destruct b; simpl; [congruence | discriminate].
  - cbn [Str.strip_suffix]. destruct (String.eqb_spec (String c s) p) as [<-|Hne].
    + split; [intros [= <-]; reflexivity|].
      intros H. f_equal. apply (append_inv_r _ _ (String c s)). exact H.
    + destruct (Str.strip_suffix p s) as [b'|] eqn:E; simpl.
      * pose proof (proj1 (IH b') eq_refl) as ->.
        split; [intros [= <-]; reflexivity|].
        destruct b as [|d b]; simpl; [congruence|].
        intros [= <- H]. apply append_inv_r in H. congruence.
      * split; [discriminate|].
        destruct b as [|d b]; simpl; [congruence|].
        intros [= <- H]. apply IH in H. discriminate.
Qed.

Lemma endswith_true s p : Str.endswith s p = true <-> exists b, s = b ++ p.
Proof.
  unfold Str.endswith. destruct (Str.strip_suffix p s) as [b|] eqn:E.
  - apply strip_suffix_Some in E. split; eauto.
  - split; [discriminate|]. intros [b Hb]. apply strip_suffix_Some in Hb. congruence.
Qed.

Lemma substring_0_length s t : substring 0 (String.length s) (s ++ t) = s.
Proof. induction s; simpl; [destruct t; reflexivity | congruence]. Qed.

Lemma drop_last_append s p : Str.drop_last (String.length p) (s ++ p) = s.
Proof.
  unfold Str.drop_last. rewrite length_append.
  replace (String.length s + String.length p - String.length p)%nat with (String.length s) by lia.
  apply substring_0_length.
Qed.

Lemma forallb_append q s t : Str.forallb q (s ++ t) = Str.forallb q s && Str.forallb q t.
Proof. induction s; simpl; [reflexivity|]. rewrite IHs. apply andb_assoc. Qed.

Lemma take_drop_while q s : Str.take_while q s ++ Str.drop_while q s = s.
Proof. induction s; simpl; [reflexivity|]. destruct (q a); simpl; congruence. Qed.

Lemma drop_while_nil q s : Str.drop_while q s = "" <-> Str.forallb q s = true.
Proof.
  induction s; simpl; [tauto|].
  destruct (q a); simpl; [exact IHs|]. split; discriminate.
Qed.

Lemma take_while_all q s : Str.forallb q s = true -> Str.take_while q s = s.
Proof.
  induction s; simpl; [reflexivity|].
  destruct (q a); simpl; [|discriminate]. intros H. f_equal. auto.
Qed.

Lemma forallb_take_while q s : Str.forallb q (Str.take_while q s) = true.
Proof. induction s; simpl; [reflexivity|]. destruct (q a) eqn:E; simpl; [rewrite E|]; auto. Qed.

End StringFacts.

(** ** Facts about the matcher *)

Section MatcherFacts.

Variable p : charclass.

(** A continuation that rejects a rest starting in the class leaves the
    greedy star no choice: it takes the longest run. *)
Lemma star_greedy (k : cont) s g :
  (forall t c s', p c = true -> k t (String c s') g = None) ->
  star p k s g = k (Str.take_while p s) (Str.drop_while p s) g.
Proof.
  revert k; induction s as [|c s IH]; intros k Hk; simpl; [reflexivity|].
  destruct (p c) eqn:Hc; [|reflexivity].
  rewrite IH by (intros; apply Hk; assumption).
  destruct (k _ _ g) eqn:E; [reflexivity|]. apply Hk. exact Hc.
Qed.

(** A continuation that accepts one rest only, a non-empty [suffix],
    makes the star stop exactly there. *)
Lemma star_suffix (suffix : string) (f : string -> groups) (k : cont) s g :
  suffix <> "" ->
  (forall t rest, k t rest g = if String.eqb rest suffix then Some (f t) else None) ->
  star p k s g =
    match Str.strip_suffix suffix s with
    | Some t => if Str.forallb p t then Some (f t) else None
    | None => None
    end.
Proof.
  intros Hne. revert f k; induction s as [|c s IH]; intros f k Hk;
    cbn [star Str.strip_suffix].
  - rewrite Hk. destruct (String.eqb_spec "" suffix); [congruence | reflexivity].
  - destruct (p c) eqn:Hc.
    + rewrite (IH (fun t => f (String c t)) (fun t => k (String c t))) by (intros; apply Hk).
      rewrite Hk.
      destruct (String.eqb_spec (String c s) suffix) as [E|E].
      * destruct (Str.strip_suffix suffix s) as [t|] eqn:Et; [|reflexivity].
        apply strip_suffix_Some in Et. subst suffix.
        apply (f_equal String.length) in Et. rewrite length_append in Et. simpl in Et. lia.
      * destruct (Str.strip_suffix suffix s) as [t|]; [|reflexivity].
        cbn [option_map Str.forallb]. rewrite Hc. destruct (Str.forallb p t); reflexivity.
    + rewrite Hk.
      destruct (String.eqb_spec (String c s) suffix) as [E|E]; [reflexivity|].
      destruct (Str.strip_suffix suffix s) as [t|]; [|reflexivity].
      cbn [option_map Str.forallb]. rewrite Hc. reflexivity.
Qed.

End MatcherFacts.

(** ** The remote listing: [file_line_re] and [get_filenames] *)

Lemma file_line_re_fullmatch line :
  fullmatch file_line_re line =
    match Str.strip_prefix "n:/Record/" line with
    | Some rest =>
        match Str.strip_suffix line_suffix rest with
        | Some t => if Str.forallb dot t then Some [("filename", t ++ ".mp4")] else None
        | None => None
        end
    | None => None
    end.
Proof.
  unfold fullmatch, file_line_re. cbn [seq rmatch].
  destruct (Str.strip_prefix "n:/Record/" line) as [rest|]; [|reflexivity].
  apply (star_suffix dot line_suffix (fun t => [("filename", t ++ ".mp4")])); [discriminate|].
  intros t r.
  destruct (String.eqb_spec r line_suffix) as [->|Hne]; [reflexivity|].
  destruct (Str.strip_prefix ".mp4" r) as [r1|] eqn:E1; [|reflexivity].
  destruct (Str.strip_prefix ",s:1000000" r1) as [r2|] eqn:E2; [|reflexivity].
  destruct (Str.strip_prefix Str.CRLF r2) as [r3|] eqn:E3; [|reflexivity].
  destruct r3; [|reflexivity].
  apply strip_prefix_Some in E1, E2, E3. subst. contradiction Hne. reflexivity.
Qed.

Lemma file_line_re_listed line g :
  fullmatch file_line_re line = Some g ->
  exists f, g = [("filename", f)] /\ listed line f.
Proof.
  rewrite file_line_re_fullmatch.
  destruct (Str.strip_prefix "n:/Record/" line) as [rest|] eqn:E1; [|discriminate].
  destruct (Str.strip_suffix line_suffix rest) as [t|] eqn:E2; [|discriminate].
  destruct (Str.forallb dot t) eqn:E3; [|discriminate].
  intros [= <-]. exists (t ++ ".mp4"). split; [reflexivity|].
  apply strip_prefix_Some in E1. apply strip_suffix_Some in E2. subst.
  repeat split.
  - rewrite append_assoc. reflexivity.
  - apply endswith_true. eauto.
  - rewrite forallb_append, E3. reflexivity.
Qed.

Lemma listed_file_line_re line f :
  listed line f -> fullmatch file_line_re line = Some [("filename", f)].
Proof.
  intros (-> & He & Hd). apply endswith_true in He as [b ->].
  rewrite forallb_append in Hd. apply andb_prop in Hd as [Hd _].
  rewrite file_line_re_fullmatch.
  replace (Str.strip_prefix _ _) with (Some (b ++ line_suffix)).
  - replace (Str.strip_suffix _ _) with (Some b); [rewrite Hd; reflexivity|].
    symmetry. apply strip_suffix_Some. reflexivity.
  - symmetry. apply strip_prefix_Some. rewrite append_assoc. reflexivity.
Qed.

Lemma get_filenames_picks lines : picks listed lines (get_filenames lines).
Proof.
  induction lines as [|line lines IH]; cbn [get_filenames]; [constructor|].
  destruct (fullmatch file_line_re line) as [g|] eqn:E.
  - destruct (file_line_re_listed _ _ E) as (f & -> & Hf).
    apply picks_take; assumption.
  - apply picks_skip; [|assumption].
    intros f Hf. apply listed_file_line_re in Hf. congruence.
Qed.

Lemma get_filenames_mp4 lines :
  Forall (fun f => Str.endswith f ".mp4" = true) (get_filenames lines).
Proof.
  induction lines as [|line lines IH]; cbn [get_filenames]; [constructor|].
  destruct (fullmatch file_line_re line) as [g|] eqn:E; [|assumption].
  destruct (file_line_re_listed _ _ E) as (f & -> & _ & Hf & _).
  constructor; assumption.
Qed.

(** ** File names: [filename_re] and [get_recording] *)

Ltac fields_step s :=
  let c := fresh "c" in
  destruct s as [|c s]; [reflexivity|];
  cbn [take_digits take_code Str.strip_prefix mbind option_bind];
  lazymatch goal with
  | |- context [if ?b then _ else _] => destruct b eqn:?; [|reflexivity]
  end.

Lemma get_recording_fields s :
  get_recording s =
    match canonical_fields s with
    | None => Ok None
    | Some f =>
        if valid_fields f then Ok (Some (recording_of s f)) else Raise ValueError
    end.
Proof.
  unfold get_recording, fullmatch, filename_re, canonical_fields.
  cbn [seq rmatch].
  do 19 fields_step s.
  cbn [mbind option_bind].
  destruct s as [|c18 s]; [reflexivity|].
  cbn [Str.forallb]. destruct (word c18) eqn:Hw; [|reflexivity]. cbn [andb].
  rewrite star_greedy by reflexivity.
  destruct (Str.forallb word s) eqn:Hs.
  - rewrite (proj2 (drop_while_nil _ _) Hs), take_while_all by assumption.
    cbn -[Str.int mk_datetime check_date_fields check_time_fields].
    unfold valid_fields, mk_datetime.
    cbn -[Str.int check_date_fields check_time_fields].
    destruct (check_date_fields _ _ _); [|reflexivity].
    destruct (check_time_fields _ _ _); reflexivity.
  - destruct (Str.drop_while word s) eqn:Hd; [|reflexivity].
    apply drop_while_nil in Hd. congruence.
Qed.

(** *** The executable reading agrees with the pattern spelled out *)

Lemma take_digits_Some n s d r :
  take_digits n s = Some (d, r) <-> s = d ++ r /\ digits n d.
Proof.
  unfold digits. revert s d r; induction n as [|n IH]; intros s d r; cbn [take_digits].
  - split.
    + intros [= <- <-]. auto.
    + intros (-> & Hl & _). destruct d; [reflexivity | discriminate].
  - destruct s as [|c s].
    + split; [discriminate|]. intros (H & Hl & _). destruct d; discriminate.
    + destruct (digit c) eqn:Hc.
      * destruct (take_digits n s) as [[d' r']|] eqn:E.
        -- apply IH in E as (-> & Hl & Hd). split.
           ++ intros [= <- <-]. cbn. rewrite Hc, Hd, Hl. auto.
           ++ intros (H & Hl' & Hd'). destruct d as [|c' d]; [discriminate|].
              cbn in H, Hl', Hd'. injection H as <- H.
              apply andb_prop in Hd' as [_ Hd'].
              assert (take_digits n (d' ++ r') = Some (d, r)) as E
                by (apply IH; rewrite H; auto).
              assert (take_digits n (d' ++ r') = Some (d', r')) as E'
                by (apply IH; auto).
              congruence.
        -- split; [discriminate|].
           intros (H & Hl' & Hd'). destruct d as [|c' d]; [discriminate|].
           cbn in H, Hl', Hd'. injection H as <- H.
           apply andb_prop in Hd' as [_ Hd'].
           assert (take_digits n s = Some (d, r)) by (apply IH; auto). congruence.
      * split; [discriminate|].
        intros (H & Hl' & Hd'). destruct d as [|c' d]; [discriminate|].
        cbn in H, Hd'. injection H as <- H. rewrite Hc in Hd'. discriminate.
  Qed.

Lemma take_code_Some cs s t r :
  take_code cs s = Some (t, r) <->
  exists c, t = String c "" /\ one_of cs c = true /\ s = t ++ r.
Proof.
  unfold take_code. destruct s as [|c s].
  - split; [discriminate|]. intros (c & -> & _ & H). discriminate.
  - destruct (one_of cs c) eqn:Hc.
    + split.
      * intros [= <- <-]. eauto.
      * intros (c' & -> & _ & [= -> ->]). reflexivity.
    + split; [discriminate|]. intros (c' & -> & Hc' & [= -> ->]). congruence.
Qed.

Lemma one_of_In cs c :
  one_of cs c = true <->
  In (String c "") (map (fun a => String a "") (list_ascii_of_string cs)).
Proof.
  unfold one_of. induction (list_ascii_of_string cs) as [|a l IH]; cbn [existsb map In].
  - split; [discriminate | tauto].
  - rewrite orb_true_iff, IH. destruct (Ascii.eqb_spec c a) as [->|Hne].
    + tauto.
    + split; intros [H|H]; auto; [discriminate | congruence].
Qed.

Lemma canonical_fields_Some s f : canonical_fields s = Some f <-> canonical s f.
Proof.
  unfold canonical_fields, canonical. split.
  - intros H.
    repeat match type of H with
    | (?m ≫= _) = Some _ =>
        let E := fresh "E" in
        destruct m as [[? ?]|] eqn:E; cbn [mbind option_bind] in H; [|discriminate H]
    | (?m ≫= _) = Some _ =>
        let E := fresh "E" in
        destruct m as [?|] eqn:E; cbn [mbind option_bind] in H; [|discriminate H]
    end.
    lazymatch type of H with
    | match ?x with "" => _ | String _ _ => _ end = _ =>
        destruct x as [|c e]; [discriminate H|]
    end.
    destruct (Str.forallb word (String c e)) eqn:Hw; [|discriminate].
    injection H as <-. cbn [f_year f_month f_day f_hour f_minute f_second f_type
                              f_direction f_extension].
    repeat match goal with
    | E : take_digits _ _ = Some _ |- _ => apply take_digits_Some in E as [-> ?]
    | E : take_code _ _ = Some _ |- _ =>
        apply take_code_Some in E as (? & -> & ?%one_of_In & ->)
    | E : Str.strip_prefix _ _ = Some _ |- _ => apply strip_prefix_Some in E as ->
    end.
    repeat rewrite append_assoc.
    repeat match goal with |- _ /\ _ => split end;
      try assumption; try discriminate; reflexivity.
  - destruct f as [y mo d h mi sc t dr e].
    cbn [f_year f_month f_day f_hour f_minute f_second f_type f_direction f_extension].
    intros (-> & Hy & Hmo & Hd & Hh & Hmi & Hsc & Ht & Hdr & He & Hw).
    repeat match goal with
    | H : digits ?n ?x |- context [take_digits ?n (?x ++ ?r)] =>
        rewrite (proj2 (take_digits_Some n (x ++ r) x r) (conj eq_refl H));
        cbn [mbind option_bind]
    | |- context [Str.strip_prefix ?p (?p ++ ?r)] =>
        rewrite (proj2 (strip_prefix_Some p (p ++ r) r) eq_refl);
        cbn [mbind option_bind]
    end.
    assert (take_code "NEPM" (t ++ dr ++ "." ++ e) = Some (t, dr ++ "." ++ e)) as ->.
    { apply take_code_Some. cbn in Ht.
      destruct Ht as [<-|[<-|[<-|[<-|[]]]]]; eexists; repeat split; reflexivity. }
    cbn [mbind option_bind].
    assert (take_code "FR" (dr ++ "." ++ e) = Some (dr, "." ++ e)) as ->.
    { apply take_code_Some. cbn in Hdr.
      destruct Hdr as [<-|[<-|[]]]; eexists; repeat split; reflexivity. }
    cbn [mbind option_bind].
    rewrite (proj2 (strip_prefix_Some "." ("." ++ e) e) eq_refl).
    cbn [mbind option_bind].
    destruct e as [|c e]; [congruence|]. rewrite Hw. reflexivity.
Qed.

(** ** Dates: ordinals and calendar fields *)

Lemma forall_below_spec k P :
  forall_below k P = true -> forall n, 0 <= n < Z.of_nat k -> P n = true.
Proof.
  induction k as [|k IH]; cbn [forall_below]; intros H n Hn; [lia|].
  apply andb_prop in H as [H1 H2].
  destruct (Z.eq_dec n (Z.of_nat k)) as [->|Hne]; [assumption|].
  apply IH; [assumption | lia].
Qed.

Lemma month_day_correct leapyear n :
  0 <= n < 365 -> month_day_ok leapyear n = true.
Proof.
  intros Hn. destruct leapyear.
  - apply (forall_below_spec 365 (month_day_ok true)); [vm_compute; reflexivity | lia].
  - apply (forall_below_spec 365 (month_day_ok false)); [vm_compute; reflexivity | lia].
Qed.

Lemma ord2ymd_fields n :
  ord2ymd n =
    let n0 := n - 1 in
    let n400 := n0 / 146097 in
    let r400 := n0 mod 146097 in
    let n100 := r400 / 36524 in
    let r100 := r400 mod 36524 in
    let n4 := r100 / 1461 in
    let r4 := r100 mod 1461 in
    let n1 := r4 / 365 in
    let r1 := r4 mod 365 in
    let y := n400 * 400 + 1 + n100 * 100 + n4 * 4 + n1 in
    if (n1 =? 4) || (n100 =? 4) then {| year := y - 1; month := 12; day := 31 |}
    else
      let leapyear := (n1 =? 3) && (negb (n4 =? 24) || (n100 =? 3)) in
      {| year := y; month := fst (month_day leapyear r1); day := snd (month_day leapyear r1) |}.
Proof.
  unfold ord2ymd, month_day, DI400Y, DI100Y, DI4Y. cbv zeta.
  destruct (_ || _); [reflexivity|].
  destruct (_ <? _); reflexivity.
Qed.

Lemma is_leap_true y : is_leap y = true <-> y mod 4 = 0 /\ (y mod 100 <> 0 \/ y mod 400 = 0).
Proof.
  unfold is_leap. rewrite andb_true_iff, orb_true_iff, negb_true_iff.
  rewrite !Z.eqb_eq, Z.eqb_neq. tauto.
Qed.

(** The year that starts after [a] cycles of 400 years, [b] centuries,
    [c] cycles of 4 years and [d] years. *)
Lemma year_decomposed a b c d :
  0 <= b <= 3 -> 0 <= c <= 24 -> 0 <= d <= 3 ->
  let y := 400 * a + 100 * b + 4 * c + d + 1 in
  days_before_year y = 146097 * a + 36524 * b + 1461 * c + 365 * d
  /\ is_leap y = (d =? 3) && (negb (c =? 24) || (b =? 3)).
Proof.
  intros Hb Hc Hd y. split.
  - unfold days_before_year. subst y. Z.div_mod_to_equations. lia.
  - apply eq_true_iff_eq. rewrite is_leap_true.
    rewrite andb_true_iff, orb_true_iff, negb_true_iff, !Z.eqb_eq, Z.eqb_neq.
    subst y. Z.div_mod_to_equations. lia.
Qed.

Lemma toordinal_fromordinal o :
  0 < o <= MAXORDINAL ->
  valid_date (fromordinal o) = true /\ toordinal (fromordinal o) = o.
Proof.
  unfold MAXORDINAL, fromordinal. intros Ho. rewrite ord2ymd_fields. cbv zeta.
  set (n0 := o - 1).
  set (n400 := n0 / 146097). set (r400 := n0 mod 146097).
  set (n100 := r400 / 36524). set (r100 := r400 mod 36524).
  set (n4 := r100 / 1461). set (r4 := r100 mod 1461).
  set (n1 := r4 / 365). set (r1 := r4 mod 365).
  assert (n0 = 146097 * n400 + r400 /\ 0 <= r400 < 146097) as [E400 B400]
    by (subst n400 r400; split; [apply Z.div_mod | apply Z.mod_pos_bound]; lia).
  assert (r400 = 36524 * n100 + r100 /\ 0 <= r100 < 36524) as [E100 B100]
    by (subst n100 r100; split; [apply Z.div_mod | apply Z.mod_pos_bound]; lia).
  assert (r100 = 1461 * n4 + r4 /\ 0 <= r4 < 1461) as [E4 B4]
    by (subst n4 r4; split; [apply Z.div_mod | apply Z.mod_pos_bound]; lia).
  assert (r4 = 365 * n1 + r1 /\ 0 <= r1 < 365) as [E1 B1]
    by (subst n1 r1; split; [apply Z.div_mod | apply Z.mod_pos_bound]; lia).
  assert (0 <= n400 <= 24) by lia.
  assert (0 <= n100 <= 4) by lia.
  assert (0 <= n4 <= 24) by lia.
  assert (0 <= n1 <= 4) by lia.
  clearbody n400 r400 n100 r100 n4 r4 n1 r1. subst n0.
  unfold valid_date, toordinal, check_date_fields, ymd2ord, days_in_month,
    days_before_month, MINYEAR, MAXYEAR.
  destruct (Z.eqb_spec n1 4) as [En1|En1]; [|destruct (Z.eqb_spec n100 4) as [En100|En100]];
    cbn [orb year month day];
    change (DAYS_IN_MONTH 12) with 31; change (DAYS_BEFORE_MONTH 12) with 334.
  - (* the last day of a leap year that ends a cycle of 4 years *)
    destruct (year_decomposed n400 n100 n4 3) as [Hd Hl]; [lia..|].
    replace (n400 * 400 + 1 + n100 * 100 + n4 * 4 + n1 - 1)
      with (400 * n400 + 100 * n100 + 4 * n4 + 3 + 1) by lia.
    rewrite Hd, Hl.
    replace (n4 =? 24) with false by (symmetry; apply Z.eqb_neq; lia).
    cbn. split; [|lia].
    rewrite !andb_true_iff, !Z.leb_le. lia.
  - (* the last day of a cycle of 400 years *)
    destruct (year_decomposed n400 3 24 3) as [Hd Hl]; [lia..|].
    replace (n400 * 400 + 1 + n100 * 100 + n4 * 4 + n1 - 1)
      with (400 * n400 + 100 * 3 + 4 * 24 + 3 + 1) by lia.
    rewrite Hd, Hl. cbn. split; [|lia].
    rewrite !andb_true_iff, !Z.leb_le. lia.
  - destruct (year_decomposed n400 n100 n4 n1) as [Hd Hl]; [lia..|].
    replace (n400 * 400 + 1 + n100 * 100 + n4 * 4 + n1)
      with (400 * n400 + 100 * n100 + 4 * n4 + n1 + 1) by lia.
    rewrite Hd, Hl.
    pose proof (month_day_correct ((n1 =? 3) && (negb (n4 =? 24) || (n100 =? 3))) r1 B1) as Hmd.
    unfold month_day_ok in Hmd.
    destruct (month_day _ r1) as [m d]. cbn [fst snd].
    rewrite !andb_true_iff, !Z.leb_le, Z.eqb_eq in Hmd.
    destruct Hmd as ((((Hm1 & Hm2) & Hd1) & Hd2) & Hsum).
    split; [|lia].
    rewrite !andb_true_iff, !Z.leb_le. lia.
Qed.

Ltac eval_tables :=
  repeat match goal with
  | |- context [DAYS_IN_MONTH ?m] =>
      let v := eval vm_compute in (DAYS_IN_MONTH m) in change (DAYS_IN_MONTH m) with v
  | |- context [DAYS_BEFORE_MONTH ?m] =>
      let v := eval vm_compute in (DAYS_BEFORE_MONTH m) in change (DAYS_BEFORE_MONTH m) with v
  | H : context [DAYS_IN_MONTH ?m] |- _ =>
      let v := eval vm_compute in (DAYS_IN_MONTH m) in change (DAYS_IN_MONTH m) with v in H
  end.

Lemma toordinal_bounds d : valid_date d = true -> 0 < toordinal d <= MAXORDINAL.
Proof.
  destruct d as [y m dd].
  unfold valid_date, toordinal, check_date_fields, ymd2ord, days_in_month,
    days_before_month, MINYEAR, MAXYEAR, MAXORDINAL. cbn [year month day].
  rewrite !andb_true_iff, !Z.leb_le. intros (((((Hy1 & Hy2) & Hm1) & Hm2) & Hd1) & Hd2).
  assert (0 <= days_before_year y
          /\ days_before_year y + 365 + (if is_leap y then 1 else 0) <= 3652059) as [Hlo Hhi].
  { destruct (is_leap y) eqn:Hl.
    - apply is_leap_true in Hl. unfold days_before_year. Z.div_mod_to_equations. lia.
    - unfold days_before_year. Z.div_mod_to_equations. lia. }
  assert (m = 1 \/ m = 2 \/ m = 3 \/ m = 4 \/ m = 5 \/ m = 6 \/ m = 7 \/ m = 8
          \/ m = 9 \/ m = 10 \/ m = 11 \/ m = 12) as Hm by lia.
  destruct (is_leap y);
    repeat (destruct Hm as [->|Hm]; [eval_tables; cbn in Hd2 |- *; lia|]);
    subst m; eval_tables; cbn in Hd2 |- *; lia.
Qed.

Lemma date_sub_ordinal d days :
  valid_date d = true -> 0 <= days ->
  date_sub d days =
    if days <? toordinal d then Ok (fromordinal (toordinal d - days))
    else Raise OverflowError.
Proof.
  intros Hv Hd. pose proof (toordinal_bounds d Hv) as Hb.
  unfold date_sub. replace (toordinal d + - days) with (toordinal d - days) by lia.
  destruct (Z.ltb_spec days (toordinal d)).
  - replace (0 <? toordinal d - days) with true by (symmetry; apply Z.ltb_lt; lia).
    replace (toordinal d - days <=? MAXORDINAL) with true by (symmetry; apply Z.leb_le; lia).
    reflexivity.
  - replace (0 <? toordinal d - days) with false by (symmetry; apply Z.ltb_ge; lia).
    reflexivity.
Qed.

(** ** The keep specification: [keep_re] and [calc_cutoff_date] *)

Lemma digit_not_unit c : digit c = true -> one_of "dw" c = false.
Proof.
  intros Hc. unfold one_of. cbn [list_ascii_of_string existsb].
  destruct (Ascii.eqb_spec c "d") as [->|_]; [discriminate|].
  destruct (Ascii.eqb_spec c "w") as [->|_]; [discriminate|].
  reflexivity.
Qed.

Lemma keep_re_fullmatch keep :
  fullmatch keep_re keep =
    match keep_fields keep with
    | Some (number, unit) => Some [("unit", unit); ("range", number)]
    | None => None
    end.
Proof.
  unfold fullmatch, keep_re, keep_fields. cbn [seq rmatch].
  destruct keep as [|c s]; [reflexivity|]. cbn [Str.take_while Str.drop_while].
  destruct (digit c) eqn:Hc; [|reflexivity].
  rewrite star_greedy.
  - destruct (Str.drop_while digit s) as [|u [|u' s']]; [reflexivity| |].
    + unfold one_of. cbn [list_ascii_of_string existsb].
      destruct (Ascii.eqb_spec u "d") as [->|Hd]; [reflexivity|].
      destruct (Ascii.eqb_spec u "w") as [->|Hw]; [reflexivity|].
      cbn [orb].
      replace (String u "" =? "d")%string with false
        by (symmetry; apply String.eqb_neq; congruence).
      replace (String u "" =? "w")%string with false
        by (symmetry; apply String.eqb_neq; congruence).
      reflexivity.
    + destruct (one_of "dw" u); cbn; destruct (Ascii.eqb u _), (Ascii.eqb u _); reflexivity.
  - intros t c' s' Hc'. rewrite (digit_not_unit _ Hc'). reflexivity.
Qed.

Lemma take_drop_while_append q s u :
  Str.forallb q s = true ->
  match u with "" => True | String c _ => q c = false end ->
  Str.take_while q (s ++ u) = s /\ Str.drop_while q (s ++ u) = u.
Proof.
  intros Hs Hu. induction s as [|c s IH]; cbn in *.
  - destruct u as [|c u]; [auto|]. cbn. rewrite Hu. auto.
  - apply andb_prop in Hs as [Hc Hs]. rewrite Hc.
    destruct (IH Hs) as [-> ->]. auto.
Qed.

Lemma keep_fields_Some keep number unit :
  keep_fields keep = Some (number, unit) <-> keep_shape keep number unit.
Proof.
  unfold keep_fields, keep_shape. split.
  - pose proof (take_drop_while digit keep) as Happ.
    pose proof (forallb_take_while digit keep) as Hall.
    destruct (Str.take_while digit keep) as [|c n] eqn:En; [discriminate|].
    destruct (_ || _) eqn:Hu; [|discriminate].
    intros [= <- <-]. repeat split; try congruence.
    rewrite !orb_true_iff, !String.eqb_eq in Hu. cbn. intuition.
  - intros (-> & Hne & Hd & Hu).
    destruct (take_drop_while_append digit number unit Hd) as [-> ->].
    { cbn in Hu. destruct Hu as [<-|[<-|[<-|[]]]]; cbn; reflexivity. }
    destruct number; [congruence|].
    cbn in Hu. destruct Hu as [<-|[<-|[<-|[]]]]; reflexivity.
Qed.

Lemma int_acc_nonneg s acc :
  Str.forallb digit s = true -> 0 <= acc -> 0 <= Str.int_acc acc s.
Proof.
  revert acc; induction s as [|c s IH]; intros acc Hs Hacc; cbn in *; [assumption|].
  apply andb_prop in Hs as [Hc Hs]. apply IH; [assumption|].
  unfold digit in Hc. apply andb_prop in Hc as [Hc _]. apply Z.leb_le in Hc.
  unfold Str.digit_value. lia.
Qed.

Lemma calc_cutoff_date_fields today keep :
  calc_cutoff_date today keep =
    match keep_fields keep with
    | None => Raise (Exception KeepFormat)
    | Some (number, unit) =>
        if Str.int number <? 1 then Raise (Exception KeepRange)
        else rbind (timedelta_days (keep_days number unit)) (date_sub today)
    end.
Proof.
  unfold calc_cutoff_date. rewrite keep_re_fullmatch.
  destruct (keep_fields keep) as [[number unit]|] eqn:E; [|reflexivity].
  apply keep_fields_Some in E as (_ & _ & _ & Hu).
  cbn [group String.eqb Ascii.eqb Bool.eqb].
  destruct (Str.int number <? 1); [reflexivity|].
  unfold keep_days, timedelta_weeks.
  cbn in Hu. destruct Hu as [<-|[<-|[<-|[]]]]; reflexivity.
Qed.

Lemma calc_cutoff_date_cases today keep :
  valid_date today = true ->
  match keep_fields keep with
  | None => calc_cutoff_date today keep = Raise (Exception KeepFormat)
  | Some (number, unit) =>
      if Str.int number <? 1 then
        calc_cutoff_date today keep = Raise (Exception KeepRange)
      else if keep_days number unit <? toordinal today then
        exists d, calc_cutoff_date today keep = Ok d
                  /\ valid_date d = true
                  /\ toordinal d = toordinal today - keep_days number unit
      else calc_cutoff_date today keep = Raise OverflowError
  end.
Proof.
  intros Hv. rewrite calc_cutoff_date_fields.
  destruct (keep_fields keep) as [[number unit]|]; [|reflexivity].
  destruct (Z.ltb_spec (Str.int number) 1) as [Hn|Hn]; [reflexivity|].
  pose proof (toordinal_bounds today Hv) as Hb. unfold MAXORDINAL in Hb.
  assert (1 <= keep_days number unit) as Hk
    by (unfold keep_days; destruct (String.eqb unit "w"); lia).
  unfold timedelta_days.
  destruct (Z.ltb_spec (keep_days number unit) (toordinal today)) as [Hlt|Hge].
  - replace (Z.abs _ <=? 999999999) with true by (symmetry; apply Z.leb_le; lia).
    cbn [rbind]. rewrite date_sub_ordinal by (assumption || lia).
    replace (keep_days number unit <? toordinal today) with true
      by (symmetry; apply Z.ltb_lt; lia).
    eexists. split; [reflexivity|].
    apply toordinal_fromordinal. unfold MAXORDINAL. lia.
  - destruct (Z.abs _ <=? 999999999); [|reflexivity].
    cbn [rbind]. rewrite date_sub_ordinal by (assumption || lia).
    replace (keep_days number unit <? toordinal today) with false
      by (symmetry; apply Z.ltb_ge; lia).
    reflexivity.
Qed.


(** ** The effectful functions *)

Lemma bind_run {A B} (m : M A) (f : A -> M B) w :
  bind m f w =
    match m w with
    | (Ok a, w') => f a w'
    | (Raise e, w') => (Raise e, w')
    end.
Proof. reflexivity. Qed.

Lemma extends_refl w : extends w w [].
Proof. unfold extends. rewrite app_nil_r. auto. Qed.

Lemma extends_trans w1 w2 w3 n1 n2 :
  extends w1 w2 n1 -> extends w2 w3 n2 -> extends w1 w3 (n1 ++ n2)%list.
Proof.
  unfold extends. intros (?&?&?&?&?) (?&?&?&?&?).
  rewrite app_assoc. repeat split; congruence.
Qed.

Lemma extends_emit w e : extends w (emit e w) [e].
Proof. unfold extends. cbn. auto. Qed.

Lemma hidden_temp n f : hidden n = false -> n <> String "." f.
Proof. intros H ->. discriminate H. Qed.

Lemma extends_emit_r w w' new e :
  extends w w' new -> extends w (emit e w') (new ++ [e])%list.
Proof. intros H. apply (extends_trans _ _ _ _ _ H), extends_emit. Qed.

Lemma extends_set_fs w w' new f :
  extends w w' new -> extends w (set_fs f w') new.
Proof. exact id. Qed.

Lemma present_set_fs destination n w b es f :
  present destination n (set_fs (<[destination := DirNode b es]> f) w) = bool_decide (n ∈ es).
Proof. unfold present, entries_of. cbn. rewrite lookup_insert_eq. reflexivity. Qed.

Lemma present_emit destination n w e :
  present destination n (emit e w) = present destination n w.
Proof. reflexivity. Qed.

Lemma print_bind {B} a (m : M B) w : (print a >> m) w = m (emit (Print a) w).
Proof. reflexivity. Qed.

Ltac solve_extends :=
  unfold extends; cbn [emit set_fs http_index http_files today cwd trace fst snd];
  rewrite <- ?app_assoc; repeat split; reflexivity.

(** The download proper: fetch to the temporary file, rename, report. *)
Lemma retrieve_rename url destination f w :
  let temp := {| dir := destination; name := String "." f |} in
  let out := (urlretrieve url temp >>
              os_rename temp {| dir := destination; name := f |} >> print Done) w in
  exists new, extends w out.2 new /\ attempts new = []
    /\ (out.1 = Ok tt -> present destination f out.2 = true)
    /\ (forall n, hidden n = false -> present destination n w = true ->
                  present destination n out.2 = true).
Proof.
  cbv zeta. rewrite bind_run. unfold urlretrieve. cbn [dir name emit http_files fs].
  destruct (bool_decide (url ∈ http_files w)).
  - destruct (fs w !! destination) as [[|[|] es]|] eqn:Hfs.
    + cbn. eexists. repeat split; eauto using extends_emit; discriminate.
    + rewrite bind_run. unfold os_rename. cbn [dir name set_fs fs].
      rewrite lookup_insert_eq, String.eqb_refl, andb_true_r.
      rewrite bool_decide_eq_true_2 by set_solver.
      cbn. eexists. split; [|split; [|split]].
      * solve_extends.
      * reflexivity.
      * intros _. unfold present, entries_of. cbn. rewrite lookup_insert_eq.
        apply bool_decide_eq_true_2. set_solver.
      * intros n Hn. unfold present, entries_of. cbn. rewrite Hfs, lookup_insert_eq.
        intros Hin%bool_decide_eq_true_1. apply bool_decide_eq_true_2.
        pose proof (hidden_temp n f Hn). set_solver.
    + cbn. eexists. repeat split; eauto using extends_emit; discriminate.
    + cbn. eexists. repeat split; eauto using extends_emit; discriminate.
  - cbn. eexists. repeat split; eauto using extends_emit; discriminate.
Qed.

Lemma download_file_cases cfg base_url f destination w :
  let out := download_file cfg base_url f destination w in
  exists new, extends w out.2 new /\ attempts new = [f]
    /\ (present destination f w = true ->
        out = (Ok tt, emit (Print (AlreadyDownloaded f)) w))
    /\ (dry_run cfg = true -> out.1 = Ok tt /\ fs out.2 = fs w /\ existsb mutation new = false)
    /\ (dry_run cfg = false -> out.1 = Ok tt -> present destination f out.2 = true)
    /\ (forall n, hidden n = false -> present destination n w = true ->
                  present destination n out.2 = true).
Proof.
  unfold download_file, os_path_exists, os_path_join. cbn [dir name].
  rewrite bind_run. fold (present destination f w).
  destruct (present destination f w) eqn:Hp.
  - cbn. eexists. repeat split; try apply extends_emit; auto.
  - rewrite bind_run. fold (present destination (String "." f) w).
    destruct (present destination (String "." f) w) eqn:Ht;
      (destruct (dry_run cfg) eqn:Hdry; cbn [negb];
       [ (* dry run *)
         cbn; eexists;
         (split; [eauto using extends_emit_r, extends_emit, extends_refl|]);
         repeat split; auto; discriminate
       | ]).
    + rewrite !print_bind.
      set (w1 := emit _ (emit _ w)).
      destruct (retrieve_rename (urljoin base_url ("Record/" ++ f)) destination f w1)
        as (new & Hext & Hatt & Hok & Hkeep).
      cbv zeta in Hext, Hok, Hkeep.
      eexists. split; [|split; [|split; [|split; [|split]]]].
      * eapply extends_trans; [|exact Hext].
        subst w1. apply extends_emit_r, extends_emit.
      * unfold attempts in *. rewrite omap_app, Hatt. reflexivity.
      * discriminate.
      * discriminate.
      * intros _. exact Hok.
      * intros n Hn Hin. apply Hkeep; assumption.
    + rewrite bind_run. cbn [ret]. rewrite !print_bind.
      set (w1 := emit _ w).
      destruct (retrieve_rename (urljoin base_url ("Record/" ++ f)) destination f w1)
        as (new & Hext & Hatt & Hok & Hkeep).
      cbv zeta in Hext, Hok, Hkeep.
      eexists. split; [|split; [|split; [|split; [|split]]]].
      * eapply extends_trans; [|exact Hext].
        subst w1. apply extends_emit.
      * unfold attempts in *. rewrite omap_app, Hatt. reflexivity.
      * discriminate.
      * discriminate.
      * intros _. exact Hok.
      * intros n Hn Hin. apply Hkeep; assumption.
Qed.

Lemma present_extends_fs destination n w w' :
  fs w' = fs w -> present destination n w' = present destination n w.
Proof. unfold present, entries_of. intros ->. reflexivity. Qed.

(** [download_file] over a list of names, one after the other. *)
Lemma download_all_cases cfg base_url destination names w :
  let out := for_each names (fun n => download_file cfg base_url n destination) w in
  exists new, extends w out.2 new
    /\ (exists rest, (attempts new ++ rest)%list = names)
    /\ (names <> [] -> attempts new <> [])
    /\ (out.1 = Ok tt -> attempts new = names)
    /\ (dry_run cfg = true ->
        out.1 = Ok tt /\ fs out.2 = fs w /\ existsb mutation new = false)
    /\ (dry_run cfg = false -> out.1 = Ok tt ->
        forall n, n ∈ names -> hidden n = false -> present destination n out.2 = true)
    /\ (forall n, hidden n = false -> present destination n w = true ->
                  present destination n out.2 = true)
    /\ ((forall n, n ∈ names -> present destination n w = true) ->
        out.1 = Ok tt /\ fs out.2 = fs w /\ existsb mutation new = false).
Proof.
  revert w; induction names as [|f names IH]; intros w; cbn [for_each].
  - exists []. cbn.
    split; [apply extends_refl|].
    split; [exists []; reflexivity|].
    split; [congruence|].
    split; [reflexivity|].
    split; [auto|].
    split; [intros _ _ n Hn; inversion Hn|].
    split; auto.
  - rewrite bind_run.
    destruct (download_file_cases cfg base_url f destination w)
      as (new1 & Hext1 & Hatt1 & Hpres1 & Hdry1 & Hok1 & Hkeep1).
    cbv zeta in *.
    destruct (download_file cfg base_url f destination w) as [[[]|e] w1] eqn:E1;
      cbn [fst snd] in *.
    + destruct (IH w1) as (new2 & Hext2 & Hpre2 & _ & Hatt2 & Hdry2 & Hok2 & Hkeep2 & Hpres2).
      exists (new1 ++ new2)%list.
      split; [eapply extends_trans; eassumption|].
      unfold attempts in *. rewrite omap_app, Hatt1.
      split; [destruct Hpre2 as [rest <-]; exists rest; reflexivity|].
      split; [discriminate|].
      split; [intros H; rewrite (Hatt2 H); reflexivity|].
      split.
      { intros Hd. destruct (Hdry1 Hd) as (_ & Hfs1 & Hm1).
        destruct (Hdry2 Hd) as (Ho2 & Hfs2 & Hm2).
        rewrite existsb_app, Hm1, Hm2. repeat split; congruence. }
      split.
      { intros Hd Ho n Hn Hh. apply elem_of_cons in Hn as [->|Hn].
        - apply Hkeep2; auto.
        - apply Hok2; auto. }
      split; [intros n Hh Hn; apply Hkeep2, Hkeep1; assumption|].
      intros Hall.
      assert (present destination f w = true) as Hf by (apply Hall; left).
      specialize (Hpres1 Hf). injection Hpres1 as ->.
      destruct Hpres2 as (Ho2 & Hfs2 & Hm2);
        [intros n Hn; rewrite present_emit; apply Hall; right; exact Hn|].
      assert (new1 = [Print (AlreadyDownloaded f)]) as ->.
      { destruct Hext1 as (_ & _ & _ & _ & Ht). cbn in Ht.
        apply app_inv_head in Ht. congruence. }
      rewrite existsb_app, Hm2. repeat split; auto.
    + exists new1. split; [assumption|].
      split; [exists names; rewrite Hatt1; reflexivity|].
      split; [rewrite Hatt1; discriminate|].
      split; [discriminate|].
      split; [intros Hd; destruct (Hdry1 Hd) as (? & _); discriminate|].
      split; [discriminate|].
      split; [assumption|].
      intros Hall.
      assert (present destination f w = true) as Hf by (apply Hall; left).
      specialize (Hpres1 Hf). discriminate.
Qed.

Lemma targets_front f b :
  f = b ++ "_NF.mp4" -> targets f = [f; b ++ "_N.gps"; b ++ "_N.3gf"].
Proof.
  intros ->. unfold targets.
  replace (Str.endswith (b ++ "_NF.mp4") "_NF.mp4") with true
    by (symmetry; apply endswith_true; eauto).
  change 7%nat with (String.length "_NF.mp4"). rewrite drop_last_append. reflexivity.
Qed.

Lemma targets_other f : (forall b, f <> b ++ "_NF.mp4") -> targets f = [f].
Proof.
  intros H. unfold targets. destruct (Str.endswith f "_NF.mp4") eqn:E; [|reflexivity].
  apply endswith_true in E as [b Hb]. destruct (H b Hb).
Qed.

Lemma targets_not_hidden f n : hidden f = false -> n ∈ targets f -> hidden n = false.
Proof.
  unfold targets. intros Hf Hn. apply elem_of_cons in Hn as [->|Hn]; [assumption|].
  destruct (Str.endswith f "_NF.mp4") eqn:E; [|inversion Hn].
  apply endswith_true in E as [b ->].
  change 7%nat with (String.length "_NF.mp4") in Hn. rewrite drop_last_append in Hn.
  destruct b as [|c b]; cbn in Hf |- *.
  - apply elem_of_cons in Hn as [->|Hn]; [reflexivity|].
    apply elem_of_cons in Hn as [->|Hn]; [reflexivity | inversion Hn].
  - apply elem_of_cons in Hn as [->|Hn]; [exact Hf|].
    apply elem_of_cons in Hn as [->|Hn]; [exact Hf | inversion Hn].
Qed.

Lemma download_recording_targets cfg base_url r destination w :
  download_recording cfg base_url (Some r) destination w =
  for_each (targets (filename r)) (fun n => download_file cfg base_url n destination) w.
Proof.
  unfold download_recording, targets, lift. cbn [attr for_each].
  rewrite !bind_run.
  destruct (download_file cfg base_url (filename r) destination w) as [[[]|e] w1];
    [|reflexivity].
  destruct (Str.endswith (filename r) "_NF.mp4"); cbn [for_each]; [|reflexivity].
  rewrite !bind_run.
  destruct (download_file cfg base_url _ destination w1) as [[[]|e] w2]; [|reflexivity].
  rewrite !bind_run.
  destruct (download_file cfg base_url _ destination w2) as [[[]|e] w3]; reflexivity.
Qed.

Lemma download_recording_None cfg base_url destination w :
  download_recording cfg base_url None destination w = (Raise AttributeError, w).
Proof. reflexivity. Qed.


(** *** The download loop of [sync] *)

Lemma sync_loop_cases cfg base_url destination (cur : list (option Recording)) w :
  let out := for_each cur (fun x => download_recording cfg base_url x destination) w in
  exists new, extends w out.2 new
    /\ (out.1 = Ok tt -> forall x, x ∈ cur -> is_Some x)
    /\ (dry_run cfg = true -> fs out.2 = fs w /\ existsb mutation new = false)
    /\ (dry_run cfg = false -> out.1 = Ok tt ->
        forall r n, Some r ∈ cur -> hidden (filename r) = false ->
                    n ∈ targets (filename r) -> present destination n out.2 = true)
    /\ (forall n, hidden n = false -> present destination n w = true ->
                  present destination n out.2 = true)
    /\ ((forall x, x ∈ cur ->
           exists r, x = Some r
                     /\ forall n, n ∈ targets (filename r) -> present destination n w = true) ->
        out.1 = Ok tt /\ fs out.2 = fs w /\ existsb mutation new = false).
Proof.
  revert w; induction cur as [|x cur IH]; intros w; cbn [for_each].
  - exists []. cbn.
    split; [apply extends_refl|].
    split; [intros _ x Hx; inversion Hx|].
    split; [auto|].
    split; [intros _ _ r n Hr; inversion Hr|].
    split; auto.
  - rewrite bind_run. destruct x as [r|].
    + rewrite download_recording_targets.
      destruct (download_all_cases cfg base_url destination (targets (filename r)) w)
        as (new1 & Hext1 & _ & _ & _ & Hdry1 & Hok1 & Hkeep1 & Hpres1).
      cbv zeta in *.
      destruct (for_each (targets (filename r)) _ w) as [[[]|e] w1] eqn:E1;
        cbn [fst snd] in *.
      * destruct (IH w1) as (new2 & Hext2 & Hsome2 & Hdry2 & Hok2 & Hkeep2 & Hpres2).
        exists (new1 ++ new2)%list.
        split; [eapply extends_trans; eassumption|].
        split.
        { intros Ho x Hx. apply elem_of_cons in Hx as [->|Hx]; [eauto | auto]. }
        split.
        { intros Hd. destruct (Hdry1 Hd) as (_ & Hfs1 & Hm1).
          destruct (Hdry2 Hd) as (Hfs2 & Hm2).
          rewrite existsb_app, Hm1, Hm2. split; [congruence | reflexivity]. }
        split.
        { intros Hd Ho r' n Hr' Hh Hn. apply elem_of_cons in Hr' as [[= ->]|Hr'].
          - apply Hkeep2; [eapply targets_not_hidden; eassumption|].
            apply Hok1; auto. eapply targets_not_hidden; eassumption.
          - eapply Hok2; eassumption. }
        split; [intros n Hh Hn; apply Hkeep2, Hkeep1; assumption|].
        intros Hall.
        destruct (Hall (Some r)) as (r' & [= <-] & Hr); [left|].
        destruct (Hpres1 Hr) as (_ & Hfs1 & Hm1).
        destruct Hpres2 as (Ho2 & Hfs2 & Hm2).
        { intros x Hx. destruct (Hall x) as (r' & -> & Hr'); [right; exact Hx|].
          exists r'. split; [reflexivity|]. intros n Hn.
          rewrite (present_extends_fs _ _ _ _ Hfs1). auto. }
        rewrite existsb_app, Hm1, Hm2. split; [assumption|]. split; [congruence | reflexivity].
      * exists new1. split; [assumption|].
        split; [discriminate|].
        split; [intros Hd; destruct (Hdry1 Hd) as (? & _); discriminate|].
        split; [discriminate|].
        split; [assumption|].
        intros Hall.
        destruct (Hall (Some r)) as (r' & [= <-] & Hr); [left|].
        destruct (Hpres1 Hr) as (? & _). discriminate.
    + rewrite download_recording_None. exists []. cbn [fst snd].
      split; [apply extends_refl|].
      split; [discriminate|].
      split; [auto|].
      split; [discriminate|].
      split; [auto|].
      intros Hall. destruct (Hall None) as (r & [=] & _). left.
Qed.

(** *** [sync] *)

Lemma sync_run cfg address destination w :
  sync cfg address destination w =
    let base_url := "http://" ++ address in
    let w0 := emit (UrlOpen (urljoin base_url "blackvue_vod.cgi")) w in
    match plan cfg base_url w with
    | Ok cur => for_each cur (fun x => download_recording cfg base_url x destination) w0
    | Raise e => (Raise e, w0)
    end.
Proof.
  unfold sync, get_dashcam_filenames, plan, listing, urlopen. cbv zeta.
  rewrite !bind_run.
  destruct (http_index w _) as [response|]; [|reflexivity].
  destruct (negb (status response =? 200)); [reflexivity|].
  cbn [ret rbind]. rewrite bind_run. unfold lift.
  destruct (rmap get_recording _) as [rs|e]; [|reflexivity].
  cbn [rbind]. rewrite bind_run.
  destruct (get_current_recordings cfg rs) as [cur|e]; reflexivity.
Qed.

Lemma plan_same_index cfg base_url w w' :
  http_index w' = http_index w -> plan cfg base_url w' = plan cfg base_url w.
Proof. unfold plan, listing. intros ->. reflexivity. Qed.

Lemma rmap_Ok {A B} (f : A -> result B) xs ys :
  rmap f xs = Ok ys -> forall y, y ∈ ys -> exists x, x ∈ xs /\ f x = Ok y.
Proof.
  revert ys; induction xs as [|x xs IH]; intros ys; cbn [rmap].
  - intros [= <-] y Hy. inversion Hy.
  - destruct (f x) as [y0|] eqn:Ex; [|discriminate]. cbn [rbind].
    destruct (rmap f xs) as [ys0|]; [|discriminate]. cbn [rbind].
    intros [= <-] y Hy. apply elem_of_cons in Hy as [->|Hy].
    + exists x. split; [left | assumption].
    + destruct (IH ys0 eq_refl y Hy) as (x' & Hx' & Hf). exists x'. split; [right|]; assumption.
Qed.

Lemma rmap_Ok_all {A B} (f : A -> result B) xs ys :
  rmap f xs = Ok ys -> forall x, x ∈ xs -> exists y, y ∈ ys /\ f x = Ok y.
Proof.
  revert ys; induction xs as [|x xs IH]; intros ys; cbn [rmap].
  - intros _ y Hy. inversion Hy.
  - destruct (f x) as [y0|] eqn:Ex; [|discriminate]. cbn [rbind].
    destruct (rmap f xs) as [ys0|]; [|discriminate]. cbn [rbind].
    intros [= <-] x' Hx'. apply elem_of_cons in Hx' as [->|Hx'].
    + exists y0. split; [left | assumption].
    + destruct (IH ys0 eq_refl x' Hx') as (y & Hy & Hf). exists y. split; [right|]; assumption.
Qed.

Lemma rfilter_Ok {A} (p : A -> result bool) xs ys :
  rfilter p xs = Ok ys ->
  (forall x, x ∈ xs -> exists b, p x = Ok b)
  /\ (forall y, y ∈ ys <-> y ∈ xs /\ p y = Ok true).
Proof.
  revert ys; induction xs as [|x xs IH]; intros ys; cbn [rfilter].
  - intros [= <-]. split; [intros x Hx; inversion Hx|].
    intros y. split; [intros Hy; inversion Hy | intros [Hy _]; inversion Hy].
  - destruct (p x) as [b|] eqn:Ex; [|discriminate]. cbn [rbind].
    destruct (rfilter p xs) as [ys0|]; [|discriminate]. cbn [rbind].
    destruct (IH ys0 eq_refl) as [IH1 IH2].
    intros [= <-]. split.
    + intros x' Hx'. apply elem_of_cons in Hx' as [->|Hx']; eauto.
    + intros y. destruct b.
      * rewrite !elem_of_cons, IH2. split.
        -- intros [->|[? ?]]; auto.
        -- intros [[->|?] ?]; auto.
      * rewrite elem_of_cons, IH2. split.
        -- intros [? ?]; auto.
        -- intros [[->|?] ?]; [congruence | auto].
Qed.

Lemma get_current_recordings_Ok cfg rs cur :
  get_current_recordings cfg rs = Ok cur ->
  (forall x, x ∈ cur -> x ∈ rs)
  /\ (is_Some (cutoff_date cfg) -> forall x, x ∈ rs -> is_Some x).
Proof.
  unfold get_current_recordings. destruct (cutoff_date cfg) as [c|].
  - intros H. apply rfilter_Ok in H as [H1 H2]. split.
    + intros x Hx. apply H2 in Hx. tauto.
    + intros _ x Hx. destruct (H1 x Hx) as [b Hb]. destruct x; [eauto | discriminate].
  - intros [= <-]. split; [auto|]. intros [? [=]].
Qed.

Lemma get_recording_Some s r :
  get_recording s = Ok (Some r) ->
  exists f, canonical_fields s = Some f /\ valid_fields f = true /\ r = recording_of s f.
Proof.
  rewrite get_recording_fields. destruct (canonical_fields s) as [f|]; [|discriminate].
  destruct (valid_fields f) eqn:Hv; [|discriminate].
  intros [= <-]. eauto.
Qed.

Lemma digit_not_dot c : digit c = true -> Ascii.eqb c "." = false.
Proof. intros H. destruct (Ascii.eqb_spec c "."); [subst; discriminate | reflexivity]. Qed.

Lemma canonical_fields_not_hidden s f : canonical_fields s = Some f -> hidden s = false.
Proof.
  unfold canonical_fields. destruct s as [|c s]; [discriminate|].
  cbn [take_digits hidden]. destruct (digit c) eqn:Hc; [|discriminate].
  intros _. apply digit_not_dot. exact Hc.
Qed.

Lemma plan_not_hidden cfg base_url w cur r :
  plan cfg base_url w = Ok cur -> Some r ∈ cur -> hidden (filename r) = false.
Proof.
  unfold plan. destruct (listing base_url w) as [names|]; [|discriminate]. cbn [rbind].
  destruct (rmap get_recording names) as [rs|] eqn:Ers; [|discriminate]. cbn [rbind].
  intros Hcur Hr. apply get_current_recordings_Ok in Hcur as [Hsub _].
  destruct (rmap_Ok _ _ _ Ers _ (Hsub _ Hr)) as (n & _ & Hn).
  apply get_recording_Some in Hn as (f & Hf & _ & ->).
  cbn. eapply canonical_fields_not_hidden. eassumption.
Qed.

(** Downloading a file that is there does nothing but say so. *)
Lemma download_file_existing cfg base_url f destination w :
  present destination f w = true ->
  download_file cfg base_url f destination w
  = (Ok tt, emit (Print (AlreadyDownloaded f)) w).
Proof.
  intros H. destruct (download_file_cases cfg base_url f destination w) as (_ & _ & _ & Hp & _).
  auto.
Qed.

(** A second [sync] after one that succeeded downloads nothing. *)
Lemma sync_twice cfg address destination w w1 :
  dry_run cfg = false ->
  sync cfg address destination w = (Ok tt, w1) ->
  exists w2 new,
    sync cfg address destination w1 = (Ok tt, w2)
    /\ fs w2 = fs w1
    /\ trace w2 = (trace w1 ++ new)%list
    /\ existsb mutation new = false.
Proof.
  intros Hdry. rewrite !sync_run. cbv zeta.
  set (base_url := "http://" ++ address).
  set (open := UrlOpen (urljoin base_url "blackvue_vod.cgi")).
  destruct (plan cfg base_url w) as [cur|e] eqn:Hplan; [|discriminate].
  intros Hrun.
  destruct (sync_loop_cases cfg base_url destination cur (emit open w))
    as (new1 & Hext1 & _ & _ & Hok1 & _).
  cbv zeta in *. rewrite Hrun in *. cbn [fst snd] in *.
  rewrite (plan_same_index cfg base_url w w1), Hplan by apply Hext1.
  destruct (sync_loop_cases cfg base_url destination cur (emit open w1))
    as (new2 & Hext2 & _ & _ & _ & _ & Hpres2).
  cbv zeta in *.
  destruct Hpres2 as (Ho2 & Hfs2 & Hm2).
  { intros x Hx.
    destruct (sync_loop_cases cfg base_url destination cur (emit open w))
      as (_ & _ & Hsome & _).
    cbv zeta in Hsome. rewrite Hrun in Hsome.
    destruct (Hsome eq_refl x Hx) as [r ->]. exists r. split; [reflexivity|].
    intros n Hn. rewrite present_emit.
    eapply Hok1; eauto. eapply plan_not_hidden; eassumption. }
  destruct (for_each cur _ (emit open w1)) as [res w2]. cbn [fst snd] in *. subst res.
  exists w2, (open :: new2). split; [reflexivity|].
  split; [exact Hfs2|].
  split; [|cbn; exact Hm2].
  destruct Hext2 as (_ & _ & _ & _ & Ht). rewrite Ht. cbn. rewrite <- app_assoc. reflexivity.
Qed.

(** *** The local scan: [get_destination_recordings] *)

Lemma get_recording_scannable x :
  scannable x = true -> get_recording x = Ok (recording_of x <$> canonical_fields x).
Proof.
  unfold scannable. rewrite get_recording_fields.
  destruct (canonical_fields x) as [f|]; [|reflexivity].
  intros ->. reflexivity.
Qed.

Lemma get_recording_unscannable x :
  scannable x = false -> get_recording x = Raise ValueError.
Proof.
  unfold scannable. rewrite get_recording_fields.
  destruct (canonical_fields x) as [f|]; [|discriminate].
  intros ->. reflexivity.
Qed.

Lemma rmap_get_recording names :
  rmap get_recording names =
    if forallb scannable names
    then Ok (map (fun x => recording_of x <$> canonical_fields x) names)
    else Raise ValueError.
Proof.
  induction names as [|x names IH]; cbn [rmap forallb map]; [reflexivity|].
  destruct (scannable x) eqn:Hx; cbn [andb].
  - rewrite (get_recording_scannable x Hx). cbn [rbind]. rewrite IH.
    destruct (forallb scannable names); reflexivity.
  - rewrite (get_recording_unscannable x Hx). reflexivity.
Qed.

Lemma filter_is_Some_map {A B} (f : A -> option B) l :
  filter (fun x => is_Some x) (map f l) = map Some (omap f l).
Proof.
  induction l as [|a l IH]; [reflexivity|].
  change (omap f (a :: l)) with (match f a with Some y => y :: omap f l | None => omap f l end).
  cbn [map]. destruct (f a) as [b|] eqn:E.
  - rewrite filter_cons_True by eauto. cbn [map]. rewrite IH. reflexivity.
  - rewrite filter_cons_False by (intros [? [=]]). exact IH.
Qed.

Lemma get_destination_recordings_run destination w :
  get_destination_recordings destination w =
    match entries_of destination w with
    | None => (Raise OSError, w)
    | Some es =>
        if forallb scannable (elements es)
        then (Ok (map Some (scanned (elements es))), w)
        else (Raise ValueError, w)
    end.
Proof.
  unfold get_destination_recordings, os_listdir. rewrite bind_run.
  destruct (entries_of destination w) as [es|]; [|reflexivity].
  rewrite bind_run. unfold lift. rewrite rmap_get_recording.
  destruct (forallb scannable (elements es)); [|reflexivity].
  cbn [ret]. rewrite filter_is_Some_map. reflexivity.
Qed.

Lemma scanned_canonical names r :
  r ∈ scanned names ->
  exists f, filename r ∈ names /\ canonical (filename r) f
            /\ r = recording_of (filename r) f.
Proof.
  intros Hr. unfold scanned in Hr.
  apply list_elem_of_omap in Hr as (x & Hx & Hf).
  destruct (canonical_fields x) as [f|] eqn:E; [|discriminate].
  injection Hf as <-. exists f. cbn [recording_of filename].
  split; [assumption|]. split; [apply canonical_fields_Some; assumption | reflexivity].
Qed.

(** *** Pruning: [get_outdated_recordings] and [prepare_destination] *)

Lemma get_outdated_recordings_Some cfg c recs :
  cutoff_date cfg = Some c ->
  get_outdated_recordings cfg (map Some recs)
  = Ok (map Some (List.filter (fun r => date_ltb (on (datetime_ r)) c) recs)).
Proof.
  unfold get_outdated_recordings. intros ->.
  induction recs as [|r recs IH]; cbn [map rfilter List.filter]; [reflexivity|].
  cbn [attr rbind]. rewrite IH. cbn [rbind].
  destruct (date_ltb _ c); reflexivity.
Qed.

Lemma outdated_names c names :
  map filename (List.filter (fun r => date_ltb (on (datetime_ r)) c) (scanned names))
  = List.filter (outdated_name c) names.
Proof.
  unfold scanned, outdated_name.
  induction names as [|x names IH]; [reflexivity|].
  change (omap ?f (x :: names))
    with (match f x with Some y => y :: omap f names | None => omap f names end).
  cbn [List.filter]. destruct (canonical_fields x) as [f|]; cbn [fmap option_fmap option_map];
    [|exact IH].
  cbn [List.filter]. destruct (date_ltb _ c); cbn [map]; rewrite IH; reflexivity.
Qed.

Lemma prune_body_Some cfg destination r w :
  prune_body cfg destination (Some r) w =
    if dry_run cfg
    then (Ok tt, emit (Print (WouldRemove (os_path_join destination (filename r)))) w)
    else os_remove (os_path_join destination (filename r)) w.
Proof. unfold prune_body. cbn [attr lift]. rewrite bind_run. destruct (dry_run cfg); reflexivity. Qed.

Lemma prune_loop_dry cfg destination recs w :
  dry_run cfg = true ->
  let out := for_each (map Some recs) (prune_body cfg destination) w in
  out.1 = Ok tt /\ fs out.2 = fs w
  /\ extends w out.2
       (map (fun x => Print (WouldRemove (os_path_join destination x))) (map filename recs)).
Proof.
  intros Hd. revert w; induction recs as [|r recs IH]; intros w; cbn [map for_each].
  - cbn. auto using extends_refl.
  - rewrite bind_run, prune_body_Some, Hd.
    destruct (IH (emit (Print (WouldRemove (os_path_join destination (filename r)))) w))
      as (Ho & Hfs & Hext).
    cbv zeta. split; [assumption|]. split; [exact Hfs|].
    apply (extends_trans _ _ _ [_] _ (extends_emit _ _) Hext).
Qed.

Lemma prune_loop_remove cfg destination recs w es :
  dry_run cfg = false ->
  fs w !! destination = Some (DirNode true es) ->
  NoDup (map filename recs) ->
  (forall n, n ∈ map filename recs -> n ∈ es) ->
  let out := for_each (map Some recs) (prune_body cfg destination) w in
  out.1 = Ok tt
  /\ (exists es', fs out.2 !! destination = Some (DirNode true es')
                  /\ forall x, x ∈ es' <-> x ∈ es /\ x ∉ map filename recs)
  /\ (forall d, d <> destination -> fs out.2 !! d = fs w !! d)
  /\ extends w out.2
       (map (fun x => Remove (os_path_join destination x)) (map filename recs)).
Proof.
  intros Hd. revert w es; induction recs as [|r recs IH]; intros w es Hfs Hnd Hin;
    cbn [map for_each].
  - cbn. split; [reflexivity|]. split; [|auto using extends_refl].
    exists es. split; [assumption|]. intros x. split; [intros ?; split; [assumption|]|tauto].
    intros Hx. inversion Hx.
  - rewrite bind_run, prune_body_Some, Hd.
    unfold os_remove, os_path_join. cbn [dir name]. rewrite Hfs.
    rewrite bool_decide_eq_true_2 by (apply Hin; left).
    cbn [map] in Hnd. apply NoDup_cons in Hnd as [Hnotin Hnd].
    set (w1 := emit _ (set_fs _ w)).
    destruct (IH w1 (es ∖ {[filename r]})) as (Ho & (es' & Hes' & Hmem) & Hother & Hext).
    { subst w1. cbn. apply lookup_insert_eq. }
    { assumption. }
    { intros n Hn. apply elem_of_difference. split; [apply Hin; right; exact Hn|].
      intros ->%elem_of_singleton. contradiction. }
    cbv zeta. split; [assumption|]. split; [|split].
    + exists es'. split; [assumption|]. intros x. rewrite Hmem, elem_of_difference,
        elem_of_singleton, elem_of_cons. tauto.
    + intros d Hne. rewrite (Hother d Hne). subst w1. cbn. apply lookup_insert_ne. congruence.
    + refine (extends_trans _ _ _ [_] _ _ Hext). subst w1. solve_extends.
Qed.

Lemma prepare_destination_run cfg destination w es :
  fs w !! destination = Some (DirNode true es) ->
  prepare_destination cfg destination w =
    match cutoff_date cfg with
    | None => (Ok tt, w)
    | Some c =>
        if forallb scannable (elements es)
        then for_each
               (map Some (List.filter (fun r => date_ltb (on (datetime_ r)) c)
                                      (scanned (elements es))))
               (prune_body cfg destination) w
        else (Raise ValueError, w)
    end.
Proof.
  intros Hfs. unfold prepare_destination, os_path_exists_dir, os_path_isdir, os_access_W.
  rewrite bind_run, Hfs. rewrite bool_decide_eq_true_2 by eauto. cbn [negb].
  rewrite bind_run, Hfs. cbn [negb]. rewrite bind_run, Hfs. cbn [negb].
  destruct (cutoff_date cfg) as [c|] eqn:Hc; [|reflexivity].
  rewrite bind_run.
  rewrite get_destination_recordings_run.
  unfold entries_of. rewrite Hfs.
  destruct (forallb scannable (elements es)); [|reflexivity].
  rewrite bind_run. unfold lift. rewrite (get_outdated_recordings_Some cfg c) by assumption.
  reflexivity.
Qed.

Lemma filter_outdated_NoDup c (es : gset string) :
  NoDup (List.filter (outdated_name c) (elements es)).
Proof. apply NoDup_ListNoDup, List.NoDup_filter, NoDup_ListNoDup, NoDup_elements. Qed.

Lemma elem_of_filter_outdated c (es : gset string) x :
  x ∈ List.filter (outdated_name c) (elements es) <-> x ∈ es /\ outdated_name c x = true.
Proof. rewrite list_elem_of_In, filter_In, <- list_elem_of_In, elem_of_elements. tauto. Qed.


(** *** A listed name that does not parse *)

Lemma sync_Ok_all_parsed cfg address destination w w' :
  sync cfg address destination w = (Ok tt, w') ->
  exists names, listing ("http://" ++ address) w = Ok names
                /\ forall n, n ∈ names -> exists r, get_recording n = Ok (Some r).
Proof.
  rewrite sync_run. cbv zeta. set (base_url := "http://" ++ address).
  destruct (plan cfg base_url w) as [cur|e] eqn:Hplan; [|discriminate].
  intros Hrun. unfold plan in Hplan.
  destruct (listing base_url w) as [names|]; [|discriminate]. cbn [rbind] in Hplan.
  destruct (rmap get_recording names) as [rs|] eqn:Ers; [|discriminate]. cbn [rbind] in Hplan.
  exists names. split; [reflexivity|]. intros n Hn.
  destruct (rmap_Ok_all _ _ _ Ers n Hn) as (y & Hy & Hget).
  assert (is_Some y) as [r ->]; [|eauto].
  destruct (get_current_recordings_Ok _ _ _ Hplan) as [_ Hall].
  destruct (cutoff_date cfg) as [c|] eqn:Hc; [apply Hall; eauto|].
  unfold get_current_recordings in Hplan. rewrite Hc in Hplan. injection Hplan as <-.
  destruct (sync_loop_cases cfg base_url destination rs
              (emit (UrlOpen (urljoin base_url "blackvue_vod.cgi")) w))
    as (_ & _ & Hsome & _).
  cbv zeta in Hsome. rewrite Hrun in Hsome. apply Hsome; [reflexivity | assumption].
Qed.

(** A listed name that does not parse makes [sync] raise. *)
Lemma sync_unparsed_raises cfg address destination w names n :
  listing ("http://" ++ address) w = Ok names ->
  n ∈ names -> get_recording n = Ok None ->
  exists e, (sync cfg address destination w).1 = Raise e.
Proof.
  intros Hl Hn Hget.
  destruct (sync cfg address destination w) as [[[]|e] w'] eqn:E; [|eauto].
  destruct (sync_Ok_all_parsed _ _ _ _ _ E) as (names' & Hl' & Hall).
  rewrite Hl in Hl'. injection Hl' as <-.
  destruct (Hall n Hn) as [r Hr]. congruence.
Qed.

(** *** Dry runs *)

Lemma mutation_map_print {A} (f : A -> message) (l : list A) :
  existsb mutation (map (fun x => Print (f x)) l) = false.
Proof. induction l; cbn; auto. Qed.

Lemma prepare_destination_dry cfg destination w :
  dry_run cfg = true -> is_Some (fs w !! destination) ->
  let out := prepare_destination cfg destination w in
  fs out.2 = fs w /\ exists new, extends w out.2 new /\ existsb mutation new = false.
Proof.
  intros Hd [nd Hfs]. cbv zeta.
  destruct nd as [|[|] es].
  - unfold prepare_destination, os_path_exists_dir, os_path_isdir.
    rewrite bind_run, Hfs. rewrite bool_decide_eq_true_2 by eauto. cbn [negb].
    rewrite bind_run, Hfs. cbn. split; [reflexivity|].
    exists []. split; [apply extends_refl | reflexivity].
  - rewrite (prepare_destination_run cfg destination w es Hfs).
    destruct (cutoff_date cfg) as [c|].
    + destruct (forallb scannable (elements es)).
      * destruct (prune_loop_dry cfg destination
                    (List.filter (fun r => date_ltb (on (datetime_ r)) c) (scanned (elements es)))
                    w Hd) as (_ & Hfs' & Hext).
        split; [assumption|]. eexists. split; [exact Hext|].
        apply (mutation_map_print (fun x => WouldRemove (os_path_join destination x))).
      * split; [reflexivity|]. exists []. split; [apply extends_refl | reflexivity].
    + split; [reflexivity|]. exists []. split; [apply extends_refl | reflexivity].
  - unfold prepare_destination, os_path_exists_dir, os_path_isdir, os_access_W.
    rewrite bind_run, Hfs. rewrite bool_decide_eq_true_2 by eauto. cbn [negb].
    rewrite bind_run, Hfs. cbn [negb]. rewrite bind_run, Hfs. cbn.
    split; [reflexivity|]. exists []. split; [apply extends_refl | reflexivity].
Qed.

Lemma sync_dry cfg address destination w :
  dry_run cfg = true ->
  let out := sync cfg address destination w in
  fs out.2 = fs w /\ exists new, extends w out.2 new /\ existsb mutation new = false.
Proof.
  intros Hd. cbv zeta. rewrite sync_run. cbv zeta.
  set (base_url := "http://" ++ address).
  set (open := UrlOpen (urljoin base_url "blackvue_vod.cgi")).
  destruct (plan cfg base_url w) as [cur|e].
  - destruct (sync_loop_cases cfg base_url destination cur (emit open w))
      as (new & Hext & _ & Hdry & _).
    cbv zeta in *. destruct (Hdry Hd) as [Hfs Hm].
    split; [exact Hfs|]. exists (open :: new). split; [|exact Hm].
    apply (extends_trans _ _ _ [open] _ (extends_emit _ _) Hext).
  - split; [reflexivity|]. exists [open]. split; [apply extends_emit | reflexivity].
Qed.

Lemma start_cases (a : args) w :
  let start : M (option date) :=
    match truthy (keep a) with
    | Some k =>
        do c <- lift (calc_cutoff_date (today w) k);
        print (CutoffDate c) >> ret (Some c)
    | None => ret None
    end in
  fs (start w).2 = fs w /\ cwd (start w).2 = cwd w
  /\ exists new, extends w (start w).2 new /\ existsb mutation new = false.
Proof.
  cbv zeta. destruct (truthy (keep a)) as [k|].
  - rewrite bind_run. unfold lift. destruct (calc_cutoff_date (today w) k) as [c|e]; cbn.
    + repeat split. exists [Print (CutoffDate c)]. split; [apply extends_emit | reflexivity].
    + repeat split. exists []. split; [apply extends_refl | reflexivity].
  - cbn. repeat split. exists []. split; [apply extends_refl | reflexivity].
Qed.

(** A dry run on a destination that exists changes no file and downloads
    nothing. *)
Lemma run_dry_existing a w :
  arg_dry_run a = true ->
  is_Some (fs w !! destination_of a w) ->
  let out := run a w in
  fs out.2 = fs w
  /\ exists new, trace out.2 = (trace w ++ new)%list /\ existsb mutation new = false.
Proof.
  intros Hd Hex. cbv zeta. unfold run.
  destruct (start_cases a w) as (Hfs0 & Hcwd0 & new0 & Hext0 & Hm0). cbv zeta in *.
  lazymatch type of Hfs0 with
  | fs (?s).2 = _ => destruct s as [[cutoff|e] w0]
  end; cbn [fst snd] in *.
  - set (cfg := {| dry_run := arg_dry_run a; cutoff_date := cutoff |}).
    set (dest := match truthy (destination a) with Some d => d | None => cwd w0 end).
    assert (dest = destination_of a w) as Hdest
      by (subst dest; unfold destination_of; rewrite Hcwd0; reflexivity).
    rewrite bind_run.
    destruct (prepare_destination_dry cfg dest w0) as (Hfs1 & new1 & Hext1 & Hm1);
      [exact Hd | rewrite Hdest, Hfs0; exact Hex |].
    cbv zeta in *.
    destruct (prepare_destination cfg dest w0) as [[[]|e1] w1]; cbn [fst snd] in *.
    + destruct (sync_dry cfg (address a) dest w1 Hd) as (Hfs2 & new2 & Hext2 & Hm2).
      cbv zeta in *.
      destruct (sync cfg (address a) dest w1) as [[[]|e2] w2]; cbn [fst snd] in *.
      * cbn [fst snd fs emit]; split; [congruence|]. exists (new0 ++ new1 ++ new2)%list. split.
        -- apply (extends_trans _ _ _ _ _ Hext0 (extends_trans _ _ _ _ _ Hext1 Hext2)).
        -- rewrite !existsb_app, Hm0, Hm1, Hm2. reflexivity.
      * cbn [fst snd fs emit]; split; [congruence|]. exists (new0 ++ (new1 ++ new2) ++ [Print (Failure e2)])%list. split.
        -- apply (extends_trans _ _ _ _ _ Hext0).
           apply extends_emit_r, (extends_trans _ _ _ _ _ Hext1 Hext2).
        -- rewrite !existsb_app, Hm0, Hm1, Hm2. reflexivity.
    + cbn [fst snd fs emit]; split; [congruence|]. exists (new0 ++ new1 ++ [Print (Failure e1)])%list. split.
      * apply (extends_trans _ _ _ _ _ Hext0), extends_emit_r, Hext1.
      * rewrite !existsb_app, Hm0, Hm1. reflexivity.
  - split; [assumption|]. exists new0. split; [apply Hext0 | assumption].
Qed.

Lemma prepare_destination_missing cfg destination w :
  fs w !! destination = None ->
  prepare_destination cfg destination w
  = (Ok tt, emit (MakeDirs destination)
              (set_fs (<[destination := DirNode true ∅]> (fs w)) w)).
Proof.
  intros Hfs. unfold prepare_destination, os_path_exists_dir, os_makedirs.
  rewrite bind_run, Hfs. rewrite bool_decide_eq_false_2 by (intros [? [=]]).
  cbn [negb]. rewrite Hfs. reflexivity.
Qed.

(** A dry run on a destination that does not exist creates it. *)
Lemma run_dry_missing a w :
  arg_dry_run a = true ->
  fs w !! destination_of a w = None ->
  let out := run a w in
  match out.1 with
  | Ok _ =>
      fs out.2 = <[destination_of a w := DirNode true ∅]> (fs w)
      /\ MakeDirs (destination_of a w) ∈ trace out.2
  | Raise _ => fs out.2 = fs w
  end.
Proof.
  intros Hd Hex. cbv zeta. unfold run.
  destruct (start_cases a w) as (Hfs0 & Hcwd0 & new0 & Hext0 & Hm0). cbv zeta in *.
  lazymatch type of Hfs0 with
  | fs (?s).2 = _ => destruct s as [[cutoff|e] w0]
  end; cbn [fst snd] in *; [|assumption].
  set (cfg := {| dry_run := arg_dry_run a; cutoff_date := cutoff |}).
  set (dest := match truthy (destination a) with Some d => d | None => cwd w0 end).
  assert (dest = destination_of a w) as Hdest
    by (subst dest; unfold destination_of; rewrite Hcwd0; reflexivity).
  rewrite bind_run, prepare_destination_missing by (rewrite Hdest, Hfs0; exact Hex).
  set (w1 := emit _ (set_fs _ w0)).
  destruct (sync_dry cfg (address a) dest w1 Hd) as (Hfs2 & new2 & Hext2 & Hm2).
  cbv zeta in *.
  assert (fs w1 = <[destination_of a w := DirNode true ∅]> (fs w)) as Hfs1
    by (subst w1; cbn; rewrite Hdest, Hfs0; reflexivity).
  assert (MakeDirs (destination_of a w) ∈ trace (sync cfg (address a) dest w1).2) as Hin.
  { destruct Hext2 as (_ & _ & _ & _ & ->). subst w1. cbn. rewrite Hdest.
    apply elem_of_app. left. apply elem_of_app. right. left. }
  destruct (sync cfg (address a) dest w1) as [[[]|e2] w2]; cbn [fst snd fs emit trace] in *.
  - split; [congruence | assumption].
  - split; [congruence|]. apply elem_of_app. left. assumption.
Qed.

(** * The claims *)

(** ** C1: a listed name that does not parse *)

(** C1 (the code breaks the claim).  The index lists
    [20230101_000000_NI.mp4], which [get_recording] maps to [None], and then
    a rear recording.  [sync] reads the attribute [filename] of that [None]
    and raises [AttributeError] right after the index request: the name is
    neither skipped nor reported, and the recording after it is not
    downloaded. *)
Theorem sync_unparsed_crash :
  get_recording "20230101_000000_NI.mp4" = Ok None
  /\ sync no_cutoff "cam" "dest" world_unparsed
     = (Raise AttributeError, emit (UrlOpen "http://cam/blackvue_vod.cgi") world_unparsed).
Proof. split; vm_compute; reflexivity. Qed.

(** With a cutoff date the same listing fails in the filter of
    [get_current_recordings], again on the attribute of [None]. *)
Example sync_unparsed_crash_cutoff :
  sync cutoff_2023 "cam" "dest" world_unparsed
  = (Raise AttributeError, emit (UrlOpen "http://cam/blackvue_vod.cgi") world_unparsed).
Proof. vm_compute. reflexivity. Qed.

(** ** C2: the lines of the index *)

Example get_filenames_index :
  get_filenames ["v:1.00" ++ Str.CRLF;
                 "n:/Record/20230101_000000_NF.mp4,s:1000000" ++ Str.CRLF]
  = ["20230101_000000_NF.mp4"].
Proof. reflexivity. Qed.

(** C2, as stated, fails: a line of the stated form whose size is not
    1000000 is skipped. *)
Lemma get_filenames_other_size :
  let line := "n:/Record/20230101_000000_NF.mp4,s:2000000" ++ Str.CRLF in
  listed_any_size line "20230101_000000_NF.mp4"
  /\ get_filenames [line] = []
  /\ ~ picks listed_any_size [line] (get_filenames [line]).
Proof.
  cbv zeta.
  assert (listed_any_size ("n:/Record/20230101_000000_NF.mp4,s:2000000" ++ Str.CRLF)
            "20230101_000000_NF.mp4") as Hl
    by (exists "2000000"; repeat split; discriminate).
  split; [exact Hl|]. split; [reflexivity|].
  change (get_filenames _) with (@nil string).
  intros H. inversion H as [| |line lines names Hskip Hrest]; subst.
  exact (Hskip _ Hl).
Qed.

(** C2 (amended).  For every list of response lines, [get_filenames]
    returns exactly the names [f] of the lines of the form
    [n:/Record/<f>,s:1000000\r\n] in which [f] ends in [.mp4] and holds no
    line feed, in their order, and skips every other line. *)
Theorem get_filenames_spec lines : picks listed lines (get_filenames lines).
Proof. apply get_filenames_picks. Qed.

(** ** C3: dry runs *)

(** C3 (the code breaks the claim).  A dry run whose destination does not
    exist creates the directory: [os.makedirs] in [prepare_destination] is
    not guarded by [dry_run], unlike [os.remove] and the download. *)
Theorem dry_run_creates_destination :
  arg_dry_run args_dry = true
  /\ fs world_no_destination !! "dest" = None
  /\ let out := run args_dry world_no_destination in
     out.1 = Ok None
     /\ fs out.2 !! "dest" = Some (DirNode true ∅)
     /\ trace out.2
        = [MakeDirs "dest";
           UrlOpen "http://cam/blackvue_vod.cgi";
           Print (WouldDownload "20230101_000000_NF.mp4"
                    (os_path_join "dest" "20230101_000000_NF.mp4"));
           Print (WouldDownload "20230101_000000_N.gps"
                    (os_path_join "dest" "20230101_000000_N.gps"));
           Print (WouldDownload "20230101_000000_N.3gf"
                    (os_path_join "dest" "20230101_000000_N.3gf"))].
Proof. repeat split; vm_compute; reflexivity. Qed.

(** ** C4: the names of recordings *)



(** A name that matches the pattern with fields that form no date makes
    [get_recording] raise, as the constructor of [datetime] does. *)
Example get_recording_month_13 :
  get_recording "20231301_000000_NF.mp4" = Raise ValueError.
Proof. reflexivity. Qed.

(** ** C5: the local scan *)



(** ** C6: the cutoff date *)

Example cutoff_7_days :
  calc_cutoff_date {| year := 2023; month := 6; day := 15 |} "7"
  = Ok {| year := 2023; month := 6; day := 8 |}.
Proof. reflexivity. Qed.

Example cutoff_2_weeks :
  calc_cutoff_date {| year := 2023; month := 6; day := 15 |} "2w"
  = Ok {| year := 2023; month := 6; day := 1 |}.
Proof. reflexivity. Qed.

Example cutoff_zero :
  calc_cutoff_date {| year := 2023; month := 6; day := 15 |} "0"
  = Raise (Exception KeepRange).
Proof. reflexivity. Qed.

Example cutoff_abc :
  calc_cutoff_date {| year := 2023; month := 6; day := 15 |} "abc"
  = Raise (Exception KeepFormat).
Proof. reflexivity. Qed.




(** ** C7: pruning *)




(** The same directory in a dry run: the file stays and is reported. *)
Example prune_dry_run :
  let cfg := {| dry_run := true;
                cutoff_date := Some {| year := 2023; month := 1; day := 1 |} |} in
  let out := prepare_destination cfg "dest" world_mixed in
  out.1 = Ok tt /\ fs out.2 = fs world_mixed
  /\ trace out.2 = [Print (WouldRemove (os_path_join "dest" "20200101_000000_NF.mp4"))].
Proof. repeat split; vm_compute; reflexivity. Qed.

(** ** C8: companion files *)



Example download_rear_no_companions :
  attempts (trace (download_recording no_cutoff "http://cam" (Some rear_recording) "dest"
                     world_front).2)
  = ["20230101_000000_NR.mp4"].
Proof. vm_compute. reflexivity. Qed.

(** ** C9: downloading twice *)

(** C9.  [download_file] on a file that is already in the destination
    only prints that it is: no request, no write.  And after a [sync] that
    succeeded outside a dry run, a second [sync] on the resulting world
    succeeds, leaves the file system as it is and has no effect but the
    index request and printing: it downloads nothing. *)
Theorem download_idempotent :
  (forall cfg base_url f destination w,
     present destination f w = true ->
     download_file cfg base_url f destination w
     = (Ok tt, emit (Print (AlreadyDownloaded f)) w))
  /\ (forall cfg address destination w w1,
        dry_run cfg = false ->
        sync cfg address destination w = (Ok tt, w1) ->
        exists w2 new,
          sync cfg address destination w1 = (Ok tt, w2)
          /\ fs w2 = fs w1
          /\ trace w2 = (trace w1 ++ new)%list
          /\ existsb mutation new = false).
Proof. split; [apply download_file_existing | apply sync_twice]. Qed.

Lemma download_idempotent_witness :
  let w1 := (sync no_cutoff "cam" "dest" world_front).2 in
  dry_run no_cutoff = false
  /\ sync no_cutoff "cam" "dest" world_front = (Ok tt, w1)
  /\ exists w2 new,
       sync no_cutoff "cam" "dest" w1 = (Ok tt, w2)
       /\ fs w2 = fs w1
       /\ trace w2 = (trace w1 ++ new)%list
       /\ existsb mutation new = false.
Proof.
  cbv zeta.
  assert (sync no_cutoff "cam" "dest" world_front
          = (Ok tt, (sync no_cutoff "cam" "dest" world_front).2)) as H
    by (vm_compute; reflexivity).
  split; [reflexivity|]. split; [exact H|].
  exact (proj2 download_idempotent no_cutoff "cam" "dest" world_front _ eq_refl H).
Defined.

(** ** C10: the names of the index end in [.mp4] *)

Lemma endswith_same_length s p q :
  Str.endswith s p = true -> Str.endswith s q = true ->
  String.length p = String.length q -> p = q.
Proof.
  intros [a Ha]%endswith_true [b Hb]%endswith_true Hlen. subst s.
  assert (String.length a = String.length b) as Hab.
  { apply (f_equal String.length) in Hb. rewrite !length_append in Hb. lia. }
  clear Hlen. revert b Hb Hab; induction a as [|c a IH]; intros [|d b] Hb Hab;
    try discriminate.
  - exact Hb.
  - cbn in Hb, Hab. injection Hb as _ Hb. injection Hab as Hab. eauto.
Qed.

(** C10.  Every name [get_filenames] returns ends in [.mp4]; none ends in
    [.gps] or [.3gf], so the companion files are never names of the
    listing. *)
Theorem get_filenames_only_mp4 lines :
  Forall (fun f => Str.endswith f ".mp4" = true
                   /\ Str.endswith f ".gps" = false
                   /\ Str.endswith f ".3gf" = false)
         (get_filenames lines).
Proof.
  eapply Forall_impl; [apply get_filenames_mp4|].
  intros f Hf. cbv beta in Hf. split; [exact Hf|]. split.
  - destruct (Str.endswith f ".gps") eqn:E; [|reflexivity].
    discriminate (endswith_same_length f ".mp4" ".gps" Hf E eq_refl).
  - destruct (Str.endswith f ".3gf") eqn:E; [|reflexivity].
    discriminate (endswith_same_length f ".mp4" ".3gf" Hf E eq_refl).
Qed.
